(** * PyAthena: the pandas result set ([pyathena/pandas/result_set.py])

    A shallow embedding of [AthenaPandasResultSet]: the object's attributes
    are a record, every method is a state-passing function that returns an
    outcome (a value or a raised exception) together with the new object
    state, and every call that leaves the module (imports, S3, pandas
    readers, the logger) is recorded in an event trace and answered by an
    explicit [World] of oracles. *)

From Stdlib Require Import ZArith String Ascii List Lia Bool.
From stdpp Require Import base option list gmap strings.
From Equations Require Import Equations.
Import ListNotations.

Local Open Scope string_scope.
Local Open Scope Z_scope.
Local Open Scope list_scope.

(** ** Python values, exceptions and outcomes *)

Inductive pyval : Type :=
| PNone
| PBool (b : bool)
| PInt (z : Z)
| PStr (s : string).

(** The exception classes the module raises or lets through.
    [BaseOnly] stands for the [BaseException] subclasses that are not
    [Exception] (KeyboardInterrupt, SystemExit): [except Exception] does
    not catch them. *)
Inductive exn_class : Type :=
| ProgrammingError
| OperationalError
| ImportError
| KeyError
| TypeError
| OtherException (name : string)
| BaseOnly (name : string).

Record exn : Type := MkExn { exn_cls : exn_class; exn_args : list pyval }.

Definition is_Exception (c : exn_class) : bool :=
  match c with BaseOnly _ => false | _ => true end.

Definition is_ProgrammingError (c : exn_class) : bool :=
  match c with ProgrammingError => true | _ => false end.

Inductive outcome (A : Type) : Type :=
| Val (a : A)
| Raise (e : exn).
Arguments Val {A} a.
Arguments Raise {A} e.

Definition raises {A} (o : outcome A) : bool :=
  match o with Val _ => false | Raise _ => true end.

(** ** Strings the way the source uses them *)

Module PyStr.

(** [s.startswith(pre)] *)
Fixpoint startswith (s pre : string) {struct pre} : bool :=
  match pre, s with
  | EmptyString, _ => true
  | String c pre', String d s' => if Ascii.eqb c d then startswith s' pre' else false
  | String _ _, EmptyString => false
  end.

Fixpoint rev_acc (s acc : string) : string :=
  match s with
  | EmptyString => acc
  | String c s' => rev_acc s' (String c acc)
  end.

Definition rev (s : string) : string := rev_acc s EmptyString.

(** [s.endswith(suf)] *)
Definition endswith (s suf : string) : bool := startswith (rev s) (rev suf).

(** [s.endswith((a, b, ...))] with a tuple of suffixes *)
Definition endswith_any (s : string) (sufs : list string) : bool :=
  existsb (endswith s) sufs.

(** [s.split(sep)] for a one-character separator: the pieces between
    the separators, empty pieces kept, never an empty list. *)
Fixpoint split (sep : ascii) (s : string) : list string :=
  match s with
  | EmptyString => [EmptyString]
  | String c s' =>
      if Ascii.eqb c sep then EmptyString :: split sep s'
      else match split sep s' with
           | p :: ps => String c p :: ps
           | [] => [String c EmptyString]
           end
  end.

(** [sep.join(parts)] *)
Fixpoint join (sep : string) (parts : list string) : string :=
  match parts with
  | [] => EmptyString
  | [p] => p
  | p :: ps => p +:+ sep +:+ join sep ps
  end.

(** [xs[:-1]] *)
Fixpoint drop_last {A} (xs : list A) : list A :=
  match xs with
  | [] => []
  | [_] => []
  | x :: xs' => x :: drop_last xs'
  end.

(** [needle in s] *)
Fixpoint contains (s needle : string) : bool :=
  startswith s needle ||
  match s with
  | EmptyString => false
  | String _ s' => contains s' needle
  end.

(** [c in s] for one character *)
Fixpoint has_char (c : ascii) (s : string) : bool :=
  match s with
  | EmptyString => false
  | String d s' => Ascii.eqb d c || has_char c s'
  end.

(** [c.isspace()]. The query text is taken to be ASCII: tab to carriage
    return, the four separators 28 to 31, and the space. *)
Definition is_space (c : ascii) : bool :=
  let n := nat_of_ascii c in
  ((9 <=? n)%nat && (n <=? 13)%nat) || ((28 <=? n)%nat && (n <=? 32)%nat).

Fixpoint lstrip (s : string) : string :=
  match s with
  | String c s' => if is_space c then lstrip s' else s
  | EmptyString => EmptyString
  end.

(** [s.strip()] *)
Definition strip (s : string) : string := rev (lstrip (rev (lstrip s))).

(** [c.upper()] on ASCII: only [a] to [z] change. *)
Definition upper_char (c : ascii) : ascii :=
  let n := nat_of_ascii c in
  if ((97 <=? n)%nat && (n <=? 122)%nat)%bool then ascii_of_nat (n - 32) else c.

(** [s.upper()] *)
Fixpoint upper (s : string) : string :=
  match s with
  | EmptyString => EmptyString
  | String c s' => String (upper_char c) (upper s')
  end.

(** Truth value of an [Optional[str]]. *)
Definition truthy (o : option string) : bool :=
  match o with
  | Some (String _ _) => true
  | _ => false
  end.

End PyStr.

Example split_uri :
  PyStr.split "/" "s3://bkt/out/part-0000.parquet"
  = ["s3:"; ""; "bkt"; "out"; "part-0000.parquet"].
Proof. reflexivity. Qed.

Example endswith_csv : PyStr.endswith "s3://bkt/q/abc.csv" ".csv" = true.
Proof. reflexivity. Qed.

Example strip_upper : PyStr.upper (PyStr.strip "  unload (select 1) ") = "UNLOAD (SELECT 1)".
Proof. reflexivity. Qed.

(** ** Data model *)

(** One entry of the column description: [d[0]] is the column name and
    [d[1]] the logical type. *)
Record column : Type := MkColumn { col_name : string; col_type : string }.

(** A row as [DataFrame.to_dict("records")] yields it. *)
Abbreviation record := (gmap string pyval).

(** A pandas table: the column labels and the rows of cells. *)
Record DataFrame : Type := MkDataFrame {
  df_columns : list string;
  df_values : list (list pyval) }.

(** [pd.DataFrame()] *)
Definition empty_DataFrame : DataFrame := MkDataFrame [] [].

(** [len(df)] *)
Definition df_len (df : DataFrame) : nat := length (df_values df).

(** [df.empty]: some axis has length zero. *)
Definition df_empty (df : DataFrame) : bool :=
  match df_columns df, df_values df with
  | [], _ | _, [] => true
  | _, _ => false
  end.

(** [dict(zip(columns, row))]: a later duplicate label overwrites. *)
Definition record_of (cols : list string) (cells : list pyval) : record :=
  foldl (fun m kv => <[kv.1 := kv.2]> m) ∅ (zip cols cells).

(** [df.to_dict("records")] *)
Definition to_dict_records (df : DataFrame) : list record :=
  map (record_of (df_columns df)) (df_values df).

(** [enumerate(xs)]: the next index and the items not yet yielded. *)
Record enumerate : Type := MkEnum { en_index : Z; en_items : list record }.

Definition enumerate_of (xs : list record) : enumerate := MkEnum 0 xs.

(** [next(it)]; [None] is [StopIteration]. *)
Definition next (it : enumerate) : option ((Z * record) * enumerate) :=
  match en_items it with
  | [] => None
  | x :: xs => Some ((en_index it, x), MkEnum (en_index it + 1) xs)
  end.

Inductive query_state : Type :=
| STATE_QUEUED | STATE_RUNNING | STATE_SUCCEEDED | STATE_FAILED | STATE_CANCELLED.

Definition is_succeeded (s : query_state) : bool :=
  match s with STATE_SUCCEEDED => true | _ => false end.

Abbreviation kwargs := (list (string * pyval)).

Record Connection : Type := MkConnection {
  profile_name : option string;
  region_name : option string;
  _client_kwargs : kwargs }.

(** The converter capability: [types], [mappings] and [get]. *)
Record Converter : Type := MkConverter {
  conv_types : gmap string string;
  conv_mappings : gmap string string;
  conv_get : string -> string }.

(** The attributes owned by the base class [AthenaResultSet]. *)
Record Base : Type := MkBase {
  state : option query_state;
  output_location : option string;
  query : option string;
  _metadata : option (list column);
  _rownumber : option Z }.

(** The constructor options, fixed after [__init__]. *)
Record Config : Type := MkConfig {
  connection : Connection;
  _converter : Converter;
  _arraysize : Z;
  _keep_default_na : bool;
  _na_values : option (list string);
  _quoting : Z;
  _unload : bool;
  _engine : string;
  _kwargs : kwargs }.

(** ** Calls that leave the module *)

Record storage_options : Type := MkStorage {
  so_profile : option string;
  so_client_kwargs : kwargs }.

Record csv_call : Type := MkCsvCall {
  csv_path : string;
  csv_sep : string;
  csv_header : option Z;
  csv_names : option (list string);
  csv_dtype : gmap string string;
  csv_converters : gmap string string;
  csv_parse_dates : list string;
  csv_infer_datetime_format : bool;
  csv_skip_blank_lines : bool;
  csv_keep_default_na : bool;
  csv_na_values : option (list string);
  csv_quoting : Z;
  csv_storage_options : storage_options;
  csv_kwargs : kwargs }.

Record parquet_call : Type := MkParquetCall {
  pq_path : string;
  pq_engine : string;
  pq_storage_options : storage_options;
  pq_use_nullable_dtypes : bool;
  pq_kwargs : kwargs }.

Inductive event : Type :=
| EvImport (module : string)
| EvReadDataManifest
| EvGetContentLength
| EvReadCsv (c : csv_call)
| EvTruncTime (times : list string)
| EvReadParquet (c : parquet_call)
| EvReadParquetSchema (engine : string)
| EvParseOutputLocation (loc : string)
| EvPyarrowSchema (path : string)
| EvFastparquetSchema (path : string)
| EvLogException (msg : string).

(** Schema recovery: entering [_read_parquet_schema], and the two calls
    through which it reads the files' embedded schema. *)
Definition is_schema_event (e : event) : bool :=
  match e with
  | EvReadParquetSchema _ | EvPyarrowSchema _ | EvFastparquetSchema _ => true
  | _ => false
  end.

(** What [importlib.import_module] does: it returns a module (of which
    the source reads [__name__]), raises an [ImportError] [e] (of which the
    source reads [str(e)]), or raises something else. *)
Inductive import_result : Type :=
| Imported (module_name : string)
| NotImportable (str_e : string)
| ImportCrashed (e : exn).

(** What the environment answers. The base-class helpers
    [_read_data_manifest] and [_get_content_length] and
    [pyathena.util.parse_output_location] are not part of this module, so
    they are oracles as well. *)
Record World : Type := MkWorld {
  import_module : string -> import_result;
  read_data_manifest : outcome (list string);
  get_content_length : outcome Z;
  pd_read_csv : csv_call -> outcome DataFrame;
  dt_time : DataFrame -> list string -> outcome DataFrame;
  pd_read_parquet : parquet_call -> outcome DataFrame;
  parse_output_location : string -> outcome (string * string);
  pyarrow_schema : string -> outcome (list column);
  fastparquet_schema : string -> outcome (list column) }.

(** ** The result set object *)

Record ResultSet : Type := MkResultSet {
  base : Base;
  conf : Config;
  _unload_location : option string;
  _data_manifest : list string;
  _df : DataFrame;
  _iterrows : enumerate;
  trace : list event }.

Definition set_base (b : Base) (rs : ResultSet) : ResultSet :=
  MkResultSet b (conf rs) (_unload_location rs) (_data_manifest rs) (_df rs)
    (_iterrows rs) (trace rs).

Definition set_metadata (m : option (list column)) (rs : ResultSet) : ResultSet :=
  let b := base rs in
  set_base (MkBase (state b) (output_location b) (query b) m (_rownumber b)) rs.

Definition set_rownumber (n : option Z) (rs : ResultSet) : ResultSet :=
  let b := base rs in
  set_base (MkBase (state b) (output_location b) (query b) (_metadata b) n) rs.

Definition set_unload_location (l : option string) (rs : ResultSet) : ResultSet :=
  MkResultSet (base rs) (conf rs) l (_data_manifest rs) (_df rs) (_iterrows rs)
    (trace rs).

Definition set_data_manifest (m : list string) (rs : ResultSet) : ResultSet :=
  MkResultSet (base rs) (conf rs) (_unload_location rs) m (_df rs) (_iterrows rs)
    (trace rs).

Definition set_df (df : DataFrame) (rs : ResultSet) : ResultSet :=
  MkResultSet (base rs) (conf rs) (_unload_location rs) (_data_manifest rs) df
    (_iterrows rs) (trace rs).

Definition set_iterrows (it : enumerate) (rs : ResultSet) : ResultSet :=
  MkResultSet (base rs) (conf rs) (_unload_location rs) (_data_manifest rs) (_df rs)
    it (trace rs).

Definition emit (e : event) (rs : ResultSet) : ResultSet :=
  MkResultSet (base rs) (conf rs) (_unload_location rs) (_data_manifest rs) (_df rs)
    (_iterrows rs) (trace rs ++ [e]).

(** [self.rownumber] *)
Definition rownumber (rs : ResultSet) : option Z := _rownumber (base rs).

(** Modelled from the spec: the base-class property [description] is not
    part of this module; the spec's Column Description is the ordered
    sequence of (name, logical type, ...) entries, absent before any
    metadata is known. *)
Definition description (rs : ResultSet) : option (list column) := _metadata (base rs).

(** [self.description if self.description else []] *)
Definition description_or_empty (rs : ResultSet) : list column :=
  match description rs with
  | Some (d :: ds) => d :: ds
  | _ => []
  end.

(** ** Methods as state-passing computations *)

Definition M (A : Type) : Type := ResultSet -> outcome A * ResultSet.

Definition ret {A} (a : A) : M A := fun rs => (Val a, rs).
Definition throw {A} (e : exn) : M A := fun rs => (Raise e, rs).
Definition bind {A B} (m : M A) (k : A -> M B) : M B :=
  fun rs =>
    match m rs with
    | (Val a, rs') => k a rs'
    | (Raise e, rs') => (Raise e, rs')
    end.
Definition get : M ResultSet := fun rs => (Val rs, rs).
Definition modify (f : ResultSet -> ResultSet) : M unit := fun rs => (Val tt, f rs).
Definition lift {A} (o : outcome A) : M A := fun rs => (o, rs).

(** [try: m except Exception as e: h e] *)
Definition try_except {A} (m : M A) (h : exn -> M A) : M A :=
  fun rs =>
    match m rs with
    | (Raise e, rs') => if is_Exception (exn_cls e) then h e rs' else (Raise e, rs')
    | r => r
    end.

Declare Scope py_scope.
Delimit Scope py_scope with py.
Notation "'do' x <~ m >> k" := (bind m (fun x => k))
  (at level 10, x name, m at level 100, k at level 200) : py_scope.
Notation "'run' m >> k" := (bind m (fun _ => k))
  (at level 10, m at level 100, k at level 200) : py_scope.
Local Open Scope py_scope.

Lemma bind_ret_l {A B} (a : A) (k : A -> M B) rs : bind (ret a) k rs = k a rs.
Proof. reflexivity. Qed.

Lemma bind_val {A B} (m : M A) (k : A -> M B) rs a rs' :
  m rs = (Val a, rs') -> bind m k rs = k a rs'.
Proof. unfold bind. intros ->. reflexivity. Qed.

Lemma bind_raise {A B} (m : M A) (k : A -> M B) rs e rs' :
  m rs = (Raise e, rs') -> bind m k rs = (Raise e, rs').
Proof. unfold bind. intros ->. reflexivity. Qed.

(** ** The row cursor: [fetchone], [fetchmany], [fetchall] *)

Abbreviation tuple := (list pyval).

(** [tuple([row[d[0]] for d in description])]: the cells in description
    order; the first label the row lacks raises [KeyError(label)]. *)
Fixpoint row_tuple (row : record) (desc : list column) : outcome tuple :=
  match desc with
  | [] => Val []
  | d :: ds =>
      match row !! col_name d with
      | None => Raise (MkExn KeyError [PStr (col_name d)])
      | Some v =>
          match row_tuple row ds with
          | Val t => Val (v :: t)
          | Raise e => Raise e
          end
      end
  end.

Definition fetchone : M (option tuple) :=
  do rs <~ get >>
  match next (_iterrows rs) with
  | None => ret None
  | Some (row, it') =>
      run modify (set_iterrows it') >>
      run modify (set_rownumber (Some (row.1 + 1))) >>
      do rs1 <~ get >>
      do t <~ lift (row_tuple row.2 (description_or_empty rs1)) >>
      ret (Some t)
  end.

(** Truth value of what [fetchone] returned: [None] and the empty tuple
    are falsy. *)
Definition row_truthy (row : option tuple) : bool :=
  match row with
  | Some (_ :: _) => true
  | _ => false
  end.

(** [if not size or size <= 0: size = self._arraysize] *)
Definition effective_size (size : option Z) (arraysize : Z) : Z :=
  match size with
  | None => arraysize
  | Some n => if (n =? 0) || (n <=? 0) then arraysize else n
  end.

(** The body of [for _ in range(size)] with [n] iterations left. *)
Fixpoint fetchmany_loop (n : nat) (rows : list tuple) : M (list tuple) :=
  match n with
  | O => ret rows
  | S n' =>
      do row <~ fetchone >>
      match row with
      | Some (c :: cs) => fetchmany_loop n' (rows ++ [c :: cs])
      | _ => ret rows
      end
  end.

Definition fetchmany (size : option Z) : M (list tuple) :=
  do rs <~ get >>
  fetchmany_loop (Z.to_nat (effective_size size (_arraysize (conf rs)))) [].

(** Rows the cursor has not yielded yet. *)
Definition remaining (rs : ResultSet) : nat := length (en_items (_iterrows rs)).

(** The state after [fetchone] has taken the head row [xs] is the rest. *)
Definition advance (xs : list record) (rs : ResultSet) : ResultSet :=
  set_rownumber (Some (en_index (_iterrows rs) + 1))
    (set_iterrows (MkEnum (en_index (_iterrows rs) + 1) xs) rs).

Lemma fetchone_unfold rs :
  fetchone rs =
  match en_items (_iterrows rs) with
  | [] => (Val None, rs)
  | x :: xs =>
      match row_tuple x (description_or_empty rs) with
      | Val t => (Val (Some t), advance xs rs)
      | Raise e => (Raise e, advance xs rs)
      end
  end.
Proof.
  unfold fetchone, bind, get, next. cbn.
  destruct (en_items (_iterrows rs)) as [|x xs]; [reflexivity|].
  cbn. unfold description_or_empty, description. cbn.
  destruct (row_tuple x _); reflexivity.
Qed.

Lemma fetchone_remaining rs o rs' :
  fetchone rs = (o, rs') ->
  remaining rs' = Nat.pred (remaining rs).
Proof.
  rewrite fetchone_unfold. unfold remaining.
  destruct (en_items (_iterrows rs)) as [|x xs] eqn:E.
  - intros [= <- <-]. rewrite E. reflexivity.
  - destruct (row_tuple x _); intros [= <- <-]; reflexivity.
Qed.

Lemma fetchone_truthy_decreases rs c cs rs' :
  fetchone rs = (Val (Some (c :: cs)), rs') ->
  (remaining rs' < remaining rs)%nat.
Proof.
  intros H. pose proof (fetchone_remaining _ _ _ H) as Hr.
  rewrite fetchone_unfold in H. unfold remaining in *.
  destruct (en_items (_iterrows rs)); [discriminate H | simpl in *; lia].
Qed.

Definition inspect {A} (a : A) : { b : A | a = b } := exist _ a eq_refl.

(** [while True: row = self.fetchone(); if row: rows.append(row) else: break].
    Every iteration that continues has taken a row off the iterator. *)
Equations? fetchall_loop (rows : list tuple) (rs : ResultSet)
  : outcome (list tuple) * ResultSet by wf (remaining rs) lt :=
  fetchall_loop rows rs with inspect (fetchone rs) => {
    | exist _ (Val (Some (cons c cs)), rs') e := fetchall_loop (rows ++ [c :: cs]) rs';
    | exist _ (Val _, rs') e := (Val rows, rs');
    | exist _ (Raise ex, rs') e := (Raise ex, rs') }.
Proof. eapply fetchone_truthy_decreases; eassumption. Qed.

Definition fetchall : M (list tuple) := fetchall_loop [].

(** [as_pandas] *)
Definition as_pandas : M DataFrame := do rs <~ get >> ret (_df rs).

(** [close]; [super_close] is the base class's [close], which is not
    part of this module and acts on the base attributes. *)
Definition close (super_close : Base -> Base) : M unit :=
  run modify (fun rs => set_base (super_close (base rs)) rs) >>
  run modify (set_df empty_DataFrame) >>
  run modify (set_iterrows (enumerate_of [])) >>
  modify (set_data_manifest []).

(** ** Materialization *)

Definition nl : string := String (ascii_of_nat 10) EmptyString.
Definition tab : string := String (ascii_of_nat 9) EmptyString.

(** A dict kept in insertion order: [d[k] = v]. *)
Fixpoint dict_set (k : string) (v : pyval) (d : kwargs) : kwargs :=
  match d with
  | [] => [(k, v)]
  | (k', v') :: d' => if String.eqb k k' then (k, v) :: d' else (k', v') :: dict_set k v d'
  end.

(** [d.update(e)] and [{**d, **e}] *)
Definition dict_update (d e : kwargs) : kwargs :=
  foldl (fun acc kv => dict_set kv.1 kv.2 acc) d e.

Definition opt_str (o : option string) : pyval :=
  match o with Some s => PStr s | None => PNone end.

(** The [storage_options] both readers receive. *)
Definition storage_options_of (c : Connection) : storage_options :=
  MkStorage (profile_name c)
    (dict_update [("region_name", opt_str (region_name c))] (_client_kwargs c)).

Definition log_exception (msg : string) : M unit := modify (emit (EvLogException msg)).

(** [raise OperationalError] carrying the caught exception's [args]. *)
Definition wrap_operational (e : exn) : exn := MkExn OperationalError (exn_args e).

Section Materialize.

Context (W : World).

(** *** Engine selection *)

Definition no_engine_message (error_msgs : string) : string :=
  "Unable to find a usable engine; tried using: 'pyarrow', 'fastparquet'." +:+ nl +:+
  "A suitable version of pyarrow or fastparquet is required for parquet support." +:+ nl +:+
  "Trying to import the above resulted in these errors:" +:+ error_msgs.

(** The [for engine in [...]] loop of [__get_engine]: the engines still
    to try and the messages collected so far. *)
Fixpoint probe_engines (engines : list string) (error_msgs : string) : M string :=
  match engines with
  | [] => throw (MkExn ImportError [PStr (no_engine_message error_msgs)])
  | engine :: rest =>
      run modify (emit (EvImport engine)) >>
      match import_module W engine with
      | Imported name => ret name
      | NotImportable str_e => probe_engines rest (error_msgs +:+ nl +:+ " - " +:+ str_e)
      | ImportCrashed e => throw e
      end
  end.

Definition __get_engine : M string :=
  do rs <~ get >>
  if String.eqb (_engine (conf rs)) "auto"
  then probe_engines ["pyarrow"; "fastparquet"] ""
  else ret (_engine (conf rs)).

(** *** Derived properties *)

Definition is_unload (rs : ResultSet) : bool :=
  _unload (conf rs) &&
  match query (base rs) with
  | Some q =>
      PyStr.truthy (Some q) &&
      PyStr.startswith (PyStr.upper (PyStr.strip q)) "UNLOAD"
  | None => false
  end.

Definition dtypes (rs : ResultSet) : gmap string string :=
  foldl (fun m d =>
           match conv_types (_converter (conf rs)) !! col_type d with
           | Some t => <[col_name d := t]> m
           | None => m
           end) ∅ (description_or_empty rs).

Definition converters (rs : ResultSet) : gmap string string :=
  foldl (fun m d =>
           match conv_mappings (_converter (conf rs)) !! col_type d with
           | Some _ => <[col_name d := conv_get (_converter (conf rs)) (col_type d)]> m
           | None => m
           end) ∅ (description_or_empty rs).

Definition _parse_dates : list string :=
  ["date"; "time"; "time with time zone"; "timestamp"; "timestamp with time zone"].

Definition str_in (s : string) (l : list string) : bool := existsb (String.eqb s) l.

Definition parse_dates (rs : ResultSet) : list string :=
  map col_name
    (filter (fun d => str_in (col_type d) _parse_dates = true) (description_or_empty rs)).

Definition _trunc_date (df : DataFrame) : M DataFrame :=
  do rs <~ get >>
  let times :=
    map col_name
      (filter (fun d => str_in (col_type d) ["time"; "time with time zone"] = true)
         (description_or_empty rs)) in
  match times with
  | [] => ret df
  | _ :: _ =>
      run modify (emit (EvTruncTime times)) >>
      lift (dt_time W df times)
  end.

(** *** The delimited-text path *)

Definition csv_call_of (rs : ResultSet) (path sep : string) (header : option Z)
    (names : option (list string)) : csv_call :=
  MkCsvCall path sep header names (dtypes rs) (converters rs) (parse_dates rs)
    true false (_keep_default_na (conf rs)) (_na_values (conf rs))
    (_quoting (conf rs)) (storage_options_of (connection (conf rs)))
    (_kwargs (conf rs)).

(** The [try] block of [_read_csv] and its handler. *)
Definition read_csv_guarded (path sep : string) (header : option Z)
    (names : option (list string)) : M DataFrame :=
  try_except
    (do rs <~ get >>
     let c := csv_call_of rs path sep header names in
     run modify (emit (EvReadCsv c)) >>
     do df <~ lift (pd_read_csv W c) >>
     _trunc_date df)
    (fun e =>
       run log_exception ("Failed to read " +:+ path +:+ ".") >>
       throw (wrap_operational e)).

Definition _get_content_length : M Z :=
  run modify (emit EvGetContentLength) >>
  lift (get_content_length W).

Definition _read_csv : M DataFrame :=
  do rs <~ get >>
  match output_location (base rs) with
  | None | Some EmptyString =>
      throw (MkExn ProgrammingError [PStr "OutputLocation is none or empty."])
  | Some loc =>
      if negb (PyStr.endswith_any loc [".csv"; ".txt"]) then ret empty_DataFrame
      else
        do length <~ _get_content_length >>
        if negb (length =? 0)%Z && PyStr.endswith loc ".txt" then
          read_csv_guarded loc tab None (Some (map col_name (description_or_empty rs)))
        else if negb (length =? 0)%Z && PyStr.endswith loc ".csv" then
          read_csv_guarded loc "," (Some 0) None
        else ret empty_DataFrame
  end.

(** *** The columnar path *)

Definition _read_data_manifest : M (list string) :=
  run modify (emit EvReadDataManifest) >>
  lift (read_data_manifest W).

(** ["/".join(entry.split("/")[:-1]) + "/"] *)
Definition unload_root (entry : string) : string :=
  PyStr.join "/" (PyStr.drop_last (PyStr.split "/" entry)) +:+ "/".

Definition bad_engine : exn :=
  MkExn ProgrammingError [PStr "Engine must be one of `pyarrow`, `fastparquet`."].

Definition _read_parquet (engine : string) : M DataFrame :=
  do manifest <~ _read_data_manifest >>
  run modify (set_data_manifest manifest) >>
  match manifest with
  | [] => ret empty_DataFrame
  | first :: _ =>
      do rs0 <~ get >>
      run (if PyStr.truthy (_unload_location rs0) then ret tt
           else modify (set_unload_location (Some (unload_root first)))) >>
      do rs <~ get >>
      let root := default "" (_unload_location rs) in
      do target <~
        (if String.eqb engine "pyarrow" then
           ret (root, [("use_threads", PBool true); ("use_legacy_dataset", PBool false)])
         else if String.eqb engine "fastparquet" then
           ret (root +:+ "*", [])
         else throw bad_engine) >>
      let kw := dict_update target.2 (_kwargs (conf rs)) in
      try_except
        (let c := MkParquetCall target.1 (_engine (conf rs))
                    (storage_options_of (connection (conf rs))) false kw in
         run modify (emit (EvReadParquet c)) >>
         lift (pd_read_parquet W c))
        (fun e =>
           run log_exception
             ("Failed to read " +:+ default "None" (output_location (base rs)) +:+ ".") >>
           throw (wrap_operational e))
  end.

Definition _parse_output_location (loc : string) : M (string * string) :=
  run modify (emit (EvParseOutputLocation loc)) >>
  lift (parse_output_location W loc).

(** The [try] block both branches of [_read_parquet_schema] share, up
    to the reader it calls. *)
Definition read_schema_guarded (ev : string -> event)
    (reader : string -> outcome (list column)) (bucket key : string)
  : M (list column) :=
  let path := bucket +:+ "/" +:+ key in
  try_except
    (run modify (emit (ev path)) >> lift (reader path))
    (fun e =>
       run log_exception ("Failed to read schema " +:+ path +:+ ".") >>
       throw (wrap_operational e)).

Definition _read_parquet_schema (engine : string) : M (list column) :=
  run modify (emit (EvReadParquetSchema engine)) >>
  if String.eqb engine "pyarrow" then
    do rs <~ get >>
    match _unload_location rs with
    | None | Some EmptyString =>
        throw (MkExn ProgrammingError [PStr "UnloadLocation is none or empty."])
    | Some loc =>
        do bk <~ _parse_output_location loc >>
        read_schema_guarded EvPyarrowSchema (pyarrow_schema W) bk.1 bk.2
    end
  else if String.eqb engine "fastparquet" then
    do rs0 <~ get >>
    run (match _data_manifest rs0 with
         | [] => do m <~ _read_data_manifest >> modify (set_data_manifest m)
         | _ :: _ => ret tt
         end) >>
    do rs <~ get >>
    match _data_manifest rs with
    | [] => throw (MkExn (OtherException "IndexError") [PStr "list index out of range"])
    | first :: _ =>
        do bk <~ _parse_output_location first >>
        read_schema_guarded EvFastparquetSchema (fastparquet_schema W) bk.1 bk.2
    end
  else throw bad_engine.

(** *** Choosing the path *)

Definition _as_pandas : M DataFrame :=
  do rs <~ get >>
  if is_unload rs then
    do engine <~ __get_engine >>
    do df <~ _read_parquet engine >>
    run (if df_empty df then modify (set_metadata (Some []))
         else do meta <~ _read_parquet_schema engine >>
              modify (set_metadata (Some meta))) >>
    ret df
  else _read_csv.

(** The body of [__init__] after [super().__init__] has filled the
    base attributes and the options have been stored. The S3 file system
    handle [_fs] is only ever handed to the schema readers, which are
    oracles here. *)
Definition __init__ : M unit :=
  do rs <~ get >>
  run (if match state (base rs) with Some s => is_succeeded s | None => false end
          && PyStr.truthy (output_location (base rs))
       then do df <~ _as_pandas >> modify (set_df df)
       else modify (set_df empty_DataFrame)) >>
  do rs' <~ get >>
  modify (set_iterrows (enumerate_of (to_dict_records (_df rs')))).

End Materialize.

(** Modelled from the spec: the base-class constructor is not part of this
    module. The spec's Row Cursor State counts the successful fetches made
    so far, so a fresh result set starts at zero; the execution descriptor
    supplies [state], [output_location] and [query], and the column
    description is whatever the pre-fetch found. *)
Definition super_init (st : option query_state) (loc q : option string)
    (meta : option (list column)) : Base :=
  MkBase st loc q meta (Some 0).

(** The object [__init__] starts from: base attributes and options
    stored, nothing materialized. *)
Definition blank (b : Base) (c : Config) (unload_location : option string) : ResultSet :=
  MkResultSet b c unload_location [] empty_DataFrame (enumerate_of []) [].

(** Constructing a result set. *)
Definition construct (W : World) (b : Base) (c : Config)
    (unload_location : option string) : outcome unit * ResultSet :=
  __init__ W (blank b c unload_location).

(** [n] calls of [fetchone] in a row: what each call produced, and the
    state they leave. *)
Fixpoint fetchone_calls (n : nat) (rs : ResultSet)
  : list (outcome (option tuple)) * ResultSet :=
  match n with
  | O => ([], rs)
  | S n' =>
      let r := fetchone rs in
      let r' := fetchone_calls n' r.2 in
      (r.1 :: r'.1, r'.2)
  end.

(** The call returned a row. *)
Definition returned_row (o : outcome (option tuple)) : bool :=
  match o with Val (Some _) => true | _ => false end.

Lemma fetchmany_loop_S n rows rs :
  fetchmany_loop (S n) rows rs =
  match fetchone rs with
  | (Val (Some (c :: cs)), rs') => fetchmany_loop n (rows ++ [c :: cs]) rs'
  | (Val _, rs') => (Val rows, rs')
  | (Raise e, rs') => (Raise e, rs')
  end.
Proof.
  cbn [fetchmany_loop]. unfold bind.
  destruct (fetchone rs) as [[[[|c cs]|]|e] rs']; reflexivity.
Qed.

(** A chunk that is not empty has taken rows off the iterator. *)
Lemma fetchmany_loop_progress n : forall rows rs rows' rs',
  fetchmany_loop n rows rs = (Val rows', rs') ->
  exists new, rows' = rows ++ new /\
    (remaining rs' <= remaining rs)%nat /\
    (new <> [] -> (remaining rs' < remaining rs)%nat).
Proof.
  induction n as [|n IH]; intros rows rs rows' rs'.
  - intros [= <- <-]. exists []. rewrite app_nil_r. repeat split; [lia | congruence].
  - rewrite fetchmany_loop_S.
    destruct (fetchone rs) as [[[[|c cs]|]|e] rs1] eqn:E.
    + intros [= <- <-]. exists []. rewrite app_nil_r.
      apply fetchone_remaining in E. repeat split; [lia | congruence].
    + intros H. apply IH in H as (new & -> & Hle & _).
      apply fetchone_truthy_decreases in E.
      exists ((c :: cs) :: new). rewrite <- app_assoc. repeat split; simpl; lia.
    + intros [= <- <-]. exists []. rewrite app_nil_r.
      apply fetchone_remaining in E. repeat split; [lia | congruence].
    + discriminate.
Qed.

Lemma fetchmany_chunk_decreases k rs t ts rs' :
  fetchmany (Some k) rs = (Val (t :: ts), rs') ->
  (remaining rs' < remaining rs)%nat.
Proof.
  unfold fetchmany, bind, get. intros H.
  apply fetchmany_loop_progress in H as (new & Hnew & _ & Hlt).
  apply Hlt. simpl in Hnew. intros ->. discriminate.
Qed.

(** The client loop "call [fetchmany(k)] until it returns an empty list",
    collecting the chunks in order. *)
Equations? drain_loop (k : Z) (out : list tuple) (rs : ResultSet)
  : outcome (list tuple) * ResultSet by wf (remaining rs) lt :=
  drain_loop k out rs with inspect (fetchmany (Some k) rs) => {
    | exist _ (Val (cons t ts), rs') e := drain_loop k (out ++ t :: ts) rs';
    | exist _ (Val nil, rs') e := (Val out, rs');
    | exist _ (Raise ex, rs') e := (Raise ex, rs') }.
Proof. eapply fetchmany_chunk_decreases; eassumption. Qed.

Definition fetchmany_until_empty (k : Z) : M (list tuple) := drain_loop k [].

(** The row number and the iterator's index move together. *)
Definition in_step (rs : ResultSet) : Prop :=
  rownumber rs = Some (en_index (_iterrows rs)).

(** The number of calls in a run that returned a row. *)
Definition rows_returned (os : list (outcome (option tuple))) : nat :=
  length (List.filter returned_row os).

(** The [size] argument is [None], zero or negative. *)
Definition size_not_given (size : option Z) : Prop :=
  match size with
  | None => True
  | Some n => n <= 0
  end.

(** The schema-recovery events recorded so far. *)
Definition schema_calls (rs : ResultSet) : list event :=
  List.filter is_schema_event (trace rs).

(** The path the reader is given for a root. *)
Definition read_target (engine root : string) : list string :=
  if String.eqb engine "pyarrow" then [root]
  else if String.eqb engine "fastparquet" then [root +:+ "*"]
  else [].

(** The state [close] leaves. *)
Definition closed (super_close : Base -> Base) (rs : ResultSet) : ResultSet :=
  (close super_close rs).2.

(** A base [close] that drops the execution, the metadata and the row
    number. *)
Definition drop_base (b : Base) : Base := MkBase None None None None None.

(** ** A small concrete result set *)

Module Demo.

Definition conn : Connection := MkConnection None (Some "us-east-1") [].

Definition converter : Converter :=
  MkConverter {[ "integer" := "Int64" ]} {[ "varchar" := "str" ]} (fun t => t).

Definition config (arraysize : Z) (unload : bool) (engine : string) : Config :=
  MkConfig conn converter arraysize false (Some [""]) 1 unload engine [].

Definition cols : list column := [MkColumn "id" "integer"; MkColumn "name" "varchar"].

Definition table : DataFrame :=
  MkDataFrame ["id"; "name"]
    [[PInt 1; PStr "a"]; [PInt 2; PStr "b"]; [PInt 3; PStr "c"]].

(** A world in which the text file holds [table]; what importing,
    listing the manifest and reading parquet do is left open. *)
Definition world_with (imp : string -> import_result)
    (manifest : outcome (list string)) (pq : parquet_call -> outcome DataFrame) : World :=
  MkWorld imp manifest (Val 42) (fun _ => Val table) (fun df _ => Val df) pq
    (fun _ => Val ("bkt", "out/")) (fun _ => Val cols) (fun _ => Val cols).

Definition no_module (m : string) : import_result :=
  NotImportable ("No module named '" +:+ m +:+ "'").

Definition os_error : exn := MkExn (OtherException "OSError") [PStr "boom"].

(** No parquet engine can be imported and reading parquet fails. *)
Definition world : World :=
  world_with no_module (Val ["s3://bkt/out/part-0000.parquet"]) (fun _ => Raise os_error).

(** Both engines import, and the UNLOAD wrote nothing. *)
Definition empty_unload_world : World :=
  world_with Imported (Val []) (fun _ => Val table).

Definition select_base : Base :=
  super_init (Some STATE_SUCCEEDED) (Some "s3://bkt/results/q1.csv")
    (Some "SELECT id, name FROM t") (Some cols).

Definition unload_base : Base :=
  super_init (Some STATE_SUCCEEDED) (Some "s3://bkt/results/q2.csv")
    (Some "unload (SELECT id, name FROM t) TO 's3://bkt/out/' WITH (format = 'PARQUET')")
    (Some cols).

Definition opened : ResultSet := (construct world select_base (config 2 false "auto") None).2.

(** An UNLOAD result set about to be materialized. *)
Definition unloading (engine : string) : ResultSet :=
  blank unload_base (config 2 true engine) None.

End Demo.

(** [Demo.opened] with its column description removed. *)
Definition undescribed : ResultSet := set_metadata (Some []) Demo.opened.

(** A result set whose query wrote no text file. *)
Definition ddl_result : ResultSet :=
  blank
    (super_init (Some STATE_SUCCEEDED) (Some "s3://bkt/results/q3")
       (Some "CREATE TABLE t (id int)") None)
    (Demo.config 2 false "auto") None.

Example demo_construct_ok :
  (construct Demo.world Demo.select_base (Demo.config 2 false "auto") None).1 = Val tt.
Proof. vm_compute. reflexivity. Qed.

Example demo_fetchall :
  (fetchall Demo.opened).1
  = Val [[PInt 1; PStr "a"]; [PInt 2; PStr "b"]; [PInt 3; PStr "c"]].
Proof. vm_compute. reflexivity. Qed.

Example demo_fetchmany :
  (fetchmany (Some 2) Demo.opened).1 = Val [[PInt 1; PStr "a"]; [PInt 2; PStr "b"]].
Proof. vm_compute. reflexivity. Qed.

Example demo_drain :
  (fetchmany_until_empty 2 Demo.opened).1
  = Val [[PInt 1; PStr "a"]; [PInt 2; PStr "b"]; [PInt 3; PStr "c"]].
Proof. vm_compute. reflexivity. Qed.

(** ** The public operations as one interface *)

Inductive call : Type :=
| CallFetchone
| CallFetchmany (size : option Z)
| CallFetchall
| CallAsPandas
| CallClose.

Inductive answer : Type :=
| ARow (row : option tuple)
| ARows (rows : list tuple)
| ATable (df : DataFrame)
| ADone.

Definition perform (super_close : Base -> Base) (c : call) : M answer :=
  match c with
  | CallFetchone => do r <~ fetchone >> ret (ARow r)
  | CallFetchmany size => do r <~ fetchmany size >> ret (ARows r)
  | CallFetchall => do r <~ fetchall >> ret (ARows r)
  | CallAsPandas => do r <~ as_pandas >> ret (ATable r)
  | CallClose => run close super_close >> ret ADone
  end.

(** One call after the other, whatever each one produced. *)
Fixpoint perform_all (super_close : Base -> Base) (cs : list call) (rs : ResultSet)
  : list (outcome answer) * ResultSet :=
  match cs with
  | [] => ([], rs)
  | c :: cs' =>
      let r := perform super_close c rs in
      let r' := perform_all super_close cs' r.2 in
      (r.1 :: r'.1, r'.2)
  end.

(** What each operation answers on a query that returned nothing. *)
Definition empty_answer (c : call) : answer :=
  match c with
  | CallFetchone => ARow None
  | CallFetchmany _ | CallFetchall => ARows []
  | CallAsPandas => ATable empty_DataFrame
  | CallClose => ADone
  end.

(** The paths handed to [pd.read_parquet] so far. *)
Definition parquet_reads (rs : ResultSet) : list string :=
  flat_map (fun e => match e with EvReadParquet c => [pq_path c] | _ => [] end) (trace rs).

(** The messages handed to [_logger.exception] so far. *)
Definition logged (rs : ResultSet) : list string :=
  flat_map (fun e => match e with EvLogException m => [m] | _ => [] end) (trace rs).

(** The outcome is a raised [ProgrammingError]. *)
Definition raises_programming_error {A} (o : outcome A) : bool :=
  match o with
  | Raise e => is_ProgrammingError (exn_cls e)
  | Val _ => false
  end.

(** * Properties *)

(** ** What a computation leaves untouched *)

Section Frame.

Context {X : Type} (f : ResultSet -> X).

Definition preserves {A} (m : M A) : Prop :=
  forall rs o rs', m rs = (o, rs') -> f rs' = f rs.

Lemma preserves_ret {A} (a : A) : preserves (ret a).
Proof. intros rs o rs' [= _ <-]. reflexivity. Qed.

Lemma preserves_throw {A} e : preserves (@throw A e).
Proof. intros rs o rs' [= _ <-]. reflexivity. Qed.

Lemma preserves_lift {A} (o : outcome A) : preserves (lift o).
Proof. intros rs o' rs' [= _ <-]. reflexivity. Qed.

Lemma preserves_get : preserves get.
Proof. intros rs o rs' [= _ <-]. reflexivity. Qed.

Lemma preserves_modify g : (forall rs, f (g rs) = f rs) -> preserves (modify g).
Proof. intros Hg rs o rs' [= _ <-]. apply Hg. Qed.

Lemma preserves_bind {A B} (m : M A) (k : A -> M B) :
  preserves m -> (forall a, preserves (k a)) -> preserves (bind m k).
Proof.
  intros Hm Hk rs o rs'. unfold bind.
  destruct (m rs) as [[a|e] rs1] eqn:E.
  - intros H. rewrite (Hk _ _ _ _ H). eapply Hm, E.
  - intros [= _ <-]. eapply Hm, E.
Qed.

Lemma preserves_try {A} (m : M A) (h : exn -> M A) :
  preserves m -> (forall e, preserves (h e)) -> preserves (try_except m h).
Proof.
  intros Hm Hh rs o rs'. unfold try_except.
  destruct (m rs) as [[a|e] rs1] eqn:E.
  - intros [= _ <-]. eapply Hm, E.
  - destruct (is_Exception (exn_cls e)).
    + intros H. rewrite (Hh _ _ _ _ H). eapply Hm, E.
    + intros [= _ <-]. eapply Hm, E.
Qed.

End Frame.

(** Walks through a method body, leaving the goals about the setters it
    applies. *)
Ltac frame_step :=
  lazymatch goal with
  | |- preserves _ (bind _ _) => apply preserves_bind; [| intros ?]
  | |- preserves _ (try_except _ _) => apply preserves_try; [| intros ?]
  | |- preserves _ (ret _) => apply preserves_ret
  | |- preserves _ (throw _) => apply preserves_throw
  | |- preserves _ (lift _) => apply preserves_lift
  | |- preserves _ get => apply preserves_get
  | |- preserves _ (modify _) => apply preserves_modify; intros ?
  | |- preserves _ (log_exception _) => apply preserves_modify; intros ?
  | |- preserves _ (if ?b then _ else _) => destruct b
  | |- preserves _ (match ?x with _ => _ end) => destruct x
  end.

Ltac frame := repeat frame_step; try reflexivity.

Section FrameMethods.

Context (W : World) {X : Type} (f : ResultSet -> X).

(** [f] looks at nothing that materialization writes except, possibly,
    the table and the iterator. *)
Hypothesis f_emit : forall e rs, f (emit e rs) = f rs.
Hypothesis f_manifest : forall m rs, f (set_data_manifest m rs) = f rs.
Hypothesis f_unload : forall l rs, f (set_unload_location l rs) = f rs.
Hypothesis f_metadata : forall m rs, f (set_metadata m rs) = f rs.

Lemma preserves_probe_engines engines : forall msgs, preserves f (probe_engines W engines msgs).
Proof.
  induction engines as [|e rest IH]; intros msgs; cbn [probe_engines]; frame; auto.
Qed.

Lemma preserves_get_engine : preserves f (__get_engine W).
Proof. unfold __get_engine. frame. apply preserves_probe_engines. Qed.

Lemma preserves_trunc_date df : preserves f (_trunc_date W df).
Proof. unfold _trunc_date. frame; auto. Qed.

Lemma preserves_read_csv : preserves f (_read_csv W).
Proof.
  unfold _read_csv, read_csv_guarded, _get_content_length. frame; auto;
    apply preserves_trunc_date.
Qed.

Lemma preserves_read_parquet engine : preserves f (_read_parquet W engine).
Proof. unfold _read_parquet, _read_data_manifest. frame; auto. Qed.

Lemma preserves_read_parquet_schema engine : preserves f (_read_parquet_schema W engine).
Proof.
  unfold _read_parquet_schema, read_schema_guarded, _parse_output_location,
    _read_data_manifest.
  frame; auto.
Qed.

Lemma preserves_as_pandas : preserves f (_as_pandas W).
Proof.
  unfold _as_pandas. frame; auto using preserves_get_engine, preserves_read_parquet,
    preserves_read_parquet_schema, preserves_read_csv.
Qed.

End FrameMethods.

Lemma bind_val_inv {A B} (m : M A) (k : A -> M B) rs b rs' :
  bind m k rs = (Val b, rs') ->
  exists a rs1, m rs = (Val a, rs1) /\ k a rs1 = (Val b, rs').
Proof.
  unfold bind. destruct (m rs) as [[a|e] rs1]; [eauto | discriminate].
Qed.

(** ** The row cursor *)

Lemma init_preserves_rownumber W : preserves rownumber (__init__ W).
Proof.
  unfold __init__. frame. apply preserves_as_pandas; reflexivity.
Qed.

(** A constructed result set has made no fetch: the row number is the
    base constructor's and the iterator stands at index zero. *)
Lemma construct_fresh W b c ul rs0 :
  construct W b c ul = (Val tt, rs0) ->
  rownumber rs0 = _rownumber b /\ en_index (_iterrows rs0) = 0.
Proof.
  intros H. split.
  - apply init_preserves_rownumber in H. exact H.
  - unfold construct, __init__ in H.
    apply bind_val_inv in H as (rs1 & s1 & _ & H).
    apply bind_val_inv in H as (u & s2 & _ & H).
    apply bind_val_inv in H as (rs2 & s3 & _ & H).
    injection H as <-. reflexivity.
Qed.

Lemma fetchone_in_step rs o rs' :
  in_step rs ->
  fetchone rs = (Val o, rs') ->
  in_step rs' /\
  en_index (_iterrows rs') =
    en_index (_iterrows rs) + (if returned_row (Val o) then 1 else 0).
Proof.
  intros Hin. rewrite fetchone_unfold.
  destruct (en_items (_iterrows rs)) as [|x xs].
  - intros [= <- <-]. split; [exact Hin | simpl; lia].
  - destruct (row_tuple x _); [|discriminate].
    intros [= <- <-]. split; reflexivity.
Qed.

Lemma fetchone_null_same_state rs rs' :
  fetchone rs = (Val None, rs') -> rs' = rs.
Proof.
  rewrite fetchone_unfold.
  destruct (en_items (_iterrows rs)) as [|x xs].
  - intros [= <-]. reflexivity.
  - destruct (row_tuple x _); discriminate.
Qed.

(** In a run of calls none of which raised, the row number is the count
    of the calls that returned a row. *)
Lemma fetchone_calls_count n : forall rs os rs',
  in_step rs ->
  fetchone_calls n rs = (os, rs') ->
  forallb (fun o => negb (raises o)) os = true ->
  in_step rs' /\
  en_index (_iterrows rs') = en_index (_iterrows rs) + Z.of_nat (rows_returned os).
Proof.
  induction n as [|n IH]; intros rs os rs' Hin.
  - intros [= <- <-] _. split; [exact Hin | unfold rows_returned; simpl; lia].
  - cbn [fetchone_calls].
    destruct (fetchone rs) as [o rs1] eqn:E1. cbn [fst snd].
    destruct (fetchone_calls n rs1) as [os1 rs2] eqn:E2. cbn [fst snd].
    intros [= <- <-]. cbn [forallb]. intros [Ho Hos]%andb_prop.
    destruct o as [o|e]; [|discriminate Ho].
    destruct (fetchone_in_step _ _ _ Hin E1) as [Hin1 Hidx1].
    destruct (IH _ _ _ Hin1 E2 Hos) as [Hin2 Hidx2].
    split; [exact Hin2|]. rewrite Hidx2, Hidx1.
    unfold rows_returned. cbn [List.filter].
    destruct (returned_row (Val o)); simpl length; lia.
Qed.

Lemma all_returned_row_count os :
  forallb returned_row os = true ->
  rows_returned os = length os /\ forallb (fun o => negb (raises o)) os = true.
Proof.
  unfold rows_returned.
  induction os as [|o os IH]; [split; reflexivity|].
  cbn [forallb List.filter]. intros [Ho Hos]%andb_prop. rewrite Ho.
  destruct (IH Hos) as [IH1 IH2]. cbn [length]. rewrite IH1, IH2.
  split; [reflexivity|].
  destruct o as [[t|]|e]; try discriminate Ho. reflexivity.
Qed.

Lemma fetchone_calls_length n : forall rs, length (fetchone_calls n rs).1 = n.
Proof.
  induction n as [|n IH]; intros rs; [reflexivity|].
  cbn [fetchone_calls fst length]. rewrite IH. reflexivity.
Qed.

(** C1. On every constructed result set, after [n] calls of [fetchone]
    that each returned a row, [rownumber] is [n]; and a call of
    [fetchone] that returns the null sentinel leaves [rownumber] (indeed
    the whole object) unchanged. *)
Theorem rownumber_counts_fetched_rows W st loc q meta c ul rs0 n os rs :
  construct W (super_init st loc q meta) c ul = (Val tt, rs0) ->
  fetchone_calls n rs0 = (os, rs) ->
  forallb returned_row os = true ->
  rownumber rs = Some (Z.of_nat n) /\
  (forall s s', fetchone s = (Val None, s') -> rownumber s' = rownumber s).
Proof.
  intros Hc Hn Hall. split.
  - destruct (construct_fresh _ _ _ _ _ Hc) as [Hr Hi]. simpl in Hr.
    assert (Hin : in_step rs0) by (unfold in_step; rewrite Hr, Hi; reflexivity).
    destruct (all_returned_row_count _ Hall) as [Hcount Hnoraise].
    destruct (fetchone_calls_count _ _ _ _ Hin Hn Hnoraise) as [Hin' Hidx].
    unfold in_step in Hin'. rewrite Hin', Hidx, Hi, Hcount.
    pose proof (fetchone_calls_length n rs0) as Hlen. rewrite Hn in Hlen.
    simpl in Hlen. rewrite Hlen. reflexivity.
  - intros s s' H. apply fetchone_null_same_state in H. subst. reflexivity.
Qed.

Lemma rownumber_counts_fetched_rows_witness :
  rownumber (fetchone_calls 2 Demo.opened).2 = Some 2.
Proof.
  refine (proj1 (rownumber_counts_fetched_rows Demo.world (Some STATE_SUCCEEDED)
    (Some "s3://bkt/results/q1.csv") (Some "SELECT id, name FROM t") (Some Demo.cols)
    (Demo.config 2 false "auto") None Demo.opened 2
    (fetchone_calls 2 Demo.opened).1 (fetchone_calls 2 Demo.opened).2 _ _ _)).
  - vm_compute. reflexivity.
  - vm_compute. reflexivity.
  - vm_compute. reflexivity.
Defined.

(** ** Chunked and whole draining *)

Lemma fetchall_loop_step rows rs :
  fetchall_loop rows rs =
  match fetchone rs with
  | (Val (Some (c :: cs)), rs') => fetchall_loop (rows ++ [c :: cs]) rs'
  | (Val _, rs') => (Val rows, rs')
  | (Raise e, rs') => (Raise e, rs')
  end.
Proof.
  rewrite fetchall_loop_equation_1.
  generalize (inspect (fetchone rs)).
  intros [[[[[|c cs]|]|ex] rs'] e]; cbn -[fetchone fetchall_loop]; rewrite e; reflexivity.
Qed.

Lemma drain_loop_step k out rs :
  drain_loop k out rs =
  match fetchmany (Some k) rs with
  | (Val (t :: ts), rs') => drain_loop k (out ++ t :: ts) rs'
  | (Val [], rs') => (Val out, rs')
  | (Raise e, rs') => (Raise e, rs')
  end.
Proof.
  rewrite drain_loop_equation_1.
  generalize (inspect (fetchmany (Some k) rs)).
  intros [[[[|t ts]|ex] rs'] e]; cbn -[fetchmany drain_loop]; rewrite e; reflexivity.
Qed.

Lemma fetchmany_unfold size rs :
  fetchmany size rs =
  fetchmany_loop (Z.to_nat (effective_size size (_arraysize (conf rs)))) [] rs.
Proof. reflexivity. Qed.

Lemma row_tuple_length row desc t :
  row_tuple row desc = Val t -> length t = length desc.
Proof.
  revert t. induction desc as [|d ds IH]; intros t; cbn [row_tuple].
  - intros [= <-]. reflexivity.
  - destruct (row !! col_name d); [|discriminate].
    destruct (row_tuple row ds) as [t'|]; [|discriminate].
    intros [= <-]. cbn [length]. rewrite (IH t' eq_refl). reflexivity.
Qed.

Lemma advance_description xs rs :
  description_or_empty (advance xs rs) = description_or_empty rs.
Proof. reflexivity. Qed.

(** With an empty description the first call of [fetchone] ends either
    loop, whatever it found. *)
Lemma empty_description_stops rs :
  description_or_empty rs = [] ->
  (exists o, fetchone rs = (Val o, (fetchone rs).2) /\ row_truthy o = false) /\
  (forall rows, fetchall_loop rows rs = (Val rows, (fetchone rs).2)) /\
  (forall n rows, fetchmany_loop (S n) rows rs = (Val rows, (fetchone rs).2)).
Proof.
  intros Hd.
  assert (H : exists o, fetchone rs = (Val o, (fetchone rs).2) /\ row_truthy o = false).
  { rewrite fetchone_unfold.
    destruct (en_items (_iterrows rs)) as [|x xs].
    - exists None. split; reflexivity.
    - rewrite Hd. exists (Some []). split; reflexivity. }
  split; [exact H|].
  destruct H as (o & Ho & Hf). split.
  - intros rows. rewrite fetchall_loop_step, Ho.
    destruct o as [[|c cs]|]; [reflexivity | discriminate Hf | reflexivity].
  - intros n rows. rewrite fetchmany_loop_S, Ho.
    destruct o as [[|c cs]|]; [reflexivity | discriminate Hf | reflexivity].
Qed.

(** With a description that is not empty, [fetchall] started where a
    chunk started goes on exactly as [fetchall] started where the chunk
    ended; and a chunk of a positive size is empty only at exhaustion. *)
Lemma chunk_then_fetchall acc n : forall rows rs,
  description_or_empty rs <> [] ->
  match fetchmany_loop n rows rs with
  | (Raise e, rs') => fetchall_loop (acc ++ rows) rs = (Raise e, rs')
  | (Val rows', rs') =>
      fetchall_loop (acc ++ rows) rs = fetchall_loop (acc ++ rows') rs' /\
      (rows' = rows -> n <> 0%nat -> rs' = rs /\ en_items (_iterrows rs) = [])
  end.
Proof.
  induction n as [|n IH]; intros rows rs Hd.
  - cbn. split; [reflexivity | congruence].
  - rewrite fetchmany_loop_S, (fetchall_loop_step (acc ++ rows) rs), fetchone_unfold.
    destruct (en_items (_iterrows rs)) as [|x xs] eqn:Ei.
    { split; [|auto]. rewrite fetchall_loop_step, fetchone_unfold, Ei. reflexivity. }
    destruct (row_tuple x (description_or_empty rs)) as [t|e] eqn:Et; [|reflexivity].
    destruct t as [|c cs].
    { apply row_tuple_length in Et.
      destruct (description_or_empty rs); [congruence | discriminate Et]. }
    specialize (IH (rows ++ [c :: cs]) (advance xs rs) Hd).
    rewrite <- app_assoc.
    destruct (fetchmany_loop n (rows ++ [c :: cs]) (advance xs rs)) as [[rows'|e] rs'] eqn:E;
      [|exact IH].
    destruct IH as [IH _]. split; [exact IH|].
    intros -> _. exfalso.
    apply fetchmany_loop_progress in E as (new & Hnew & _).
    apply (f_equal (@length _)) in Hnew. rewrite !length_app in Hnew.
    simpl in Hnew. lia.
Qed.

Lemma drain_loop_fetchall_loop k :
  0 < k ->
  forall m rs acc, remaining rs = m -> drain_loop k acc rs = fetchall_loop acc rs.
Proof.
  intros Hk m. induction m as [m IH] using lt_wf_ind. intros rs acc Hm.
  rewrite drain_loop_step, fetchmany_unfold.
  assert (Hsize : effective_size (Some k) (_arraysize (conf rs)) = k).
  { unfold effective_size.
    destruct (k =? 0) eqn:E1; [lia|]. destruct (k <=? 0) eqn:E2; [lia|]. reflexivity. }
  rewrite Hsize.
  destruct (Z.to_nat k) as [|n] eqn:En; [lia|].
  destruct (description_or_empty rs) as [|d ds] eqn:Hd.
  - destruct (empty_description_stops rs Hd) as (_ & Hall & Hmany).
    rewrite Hmany, Hall. reflexivity.
  - pose proof (chunk_then_fetchall acc (S n) [] rs) as H.
    rewrite Hd in H. specialize (H ltac:(discriminate)).
    rewrite app_nil_r in H.
    destruct (fetchmany_loop (S n) [] rs) as [[[|t ts]|e] rs'] eqn:E.
    + destruct H as [_ H]. destruct (H eq_refl ltac:(discriminate)) as [-> Hnil].
      rewrite fetchall_loop_step, fetchone_unfold, Hnil. reflexivity.
    + destruct H as [H _]. rewrite H.
      apply (IH (remaining rs')); [|reflexivity].
      apply fetchmany_loop_progress in E as (new & Hnew & _ & Hlt).
      rewrite <- Hm. apply Hlt. simpl in Hnew. intros ->. discriminate.
    + symmetry. exact H.
Qed.

(** C2. For every [k > 0], calling [fetchmany(k)] until it returns an
    empty list yields, chunk after chunk, exactly what one [fetchall()]
    yields from the same starting cursor over the same table (the same
    rows in the same order, or the same exception), and leaves the same
    state behind. *)
Theorem fetchmany_until_empty_is_fetchall k rs :
  0 < k ->
  fetchmany_until_empty k rs = fetchall rs.
Proof.
  intros Hk. unfold fetchmany_until_empty, fetchall.
  apply (drain_loop_fetchall_loop k Hk (remaining rs)). reflexivity.
Qed.

Lemma fetchmany_until_empty_is_fetchall_witness :
  fetchmany_until_empty 2 Demo.opened = fetchall Demo.opened.
Proof.
  apply (fetchmany_until_empty_is_fetchall 2 Demo.opened). lia.
Defined.

(** ** Closing *)

Section Close.

Variable super_close : Base -> Base.

Local Abbreviation closed := (closed super_close).

Lemma close_unfold rs :
  close super_close rs =
  (Val tt, MkResultSet (super_close (base rs)) (conf rs) (_unload_location rs) []
             empty_DataFrame (enumerate_of []) (trace rs)).
Proof. reflexivity. Qed.

Lemma closed_exhausted rs : en_items (_iterrows (closed rs)) = [].
Proof. reflexivity. Qed.

Lemma exhausted_fetchone rs :
  en_items (_iterrows rs) = [] -> fetchone rs = (Val None, rs).
Proof. intros H. rewrite fetchone_unfold, H. reflexivity. Qed.

Lemma exhausted_fetchmany size rs :
  en_items (_iterrows rs) = [] -> fetchmany size rs = (Val [], rs).
Proof.
  intros H. rewrite fetchmany_unfold.
  destruct (Z.to_nat _) as [|n]; [reflexivity|].
  rewrite fetchmany_loop_S, exhausted_fetchone by exact H. reflexivity.
Qed.

Lemma exhausted_fetchall rs :
  en_items (_iterrows rs) = [] -> fetchall rs = (Val [], rs).
Proof.
  intros H. unfold fetchall.
  rewrite fetchall_loop_step, exhausted_fetchone by exact H. reflexivity.
Qed.

Hypothesis super_close_idempotent :
  forall b, super_close (super_close b) = super_close b.

Lemma close_closed rs : close super_close (closed rs) = (Val tt, closed rs).
Proof.
  unfold closed. rewrite !close_unfold. cbn.
  rewrite super_close_idempotent. reflexivity.
Qed.

Lemma perform_closed c rs :
  perform super_close c (closed rs) = (Val (empty_answer c), closed rs).
Proof.
  destruct c; cbn [perform empty_answer]; unfold bind.
  - rewrite exhausted_fetchone by apply closed_exhausted. reflexivity.
  - rewrite exhausted_fetchmany by apply closed_exhausted. reflexivity.
  - rewrite exhausted_fetchall by apply closed_exhausted. reflexivity.
  - reflexivity.
  - rewrite close_closed. reflexivity.
Qed.

(** C3. [close] itself does not raise, whatever the cursor state. On
    the closed result set [fetchone] returns null, [fetchmany] (for every
    size) and [fetchall] return the empty list and [as_pandas] returns
    the table with zero rows; each of them, and a second [close], leaves
    the closed object as it is, so that any sequence of operations after
    [close] answers as on an empty result and none of them raises. The
    base class's [close] is not part of the module: it is any function
    of the base attributes that is itself idempotent. *)
Theorem after_close_everything_is_empty rs (cs : list call) :
  (close super_close rs).1 = Val tt /\
  fetchone (closed rs) = (Val None, closed rs) /\
  (forall size, fetchmany size (closed rs) = (Val [], closed rs)) /\
  fetchall (closed rs) = (Val [], closed rs) /\
  (as_pandas (closed rs) = (Val empty_DataFrame, closed rs) /\
   df_len empty_DataFrame = 0%nat) /\
  close super_close (closed rs) = (Val tt, closed rs) /\
  perform_all super_close cs (closed rs)
  = (map (fun c => Val (empty_answer c)) cs, closed rs).
Proof.
  split; [reflexivity|].
  split; [apply exhausted_fetchone, closed_exhausted|].
  split; [intros size; apply exhausted_fetchmany, closed_exhausted|].
  split; [apply exhausted_fetchall, closed_exhausted|].
  split; [split; reflexivity|].
  split; [apply close_closed|].
  induction cs as [|c cs' IH]; [reflexivity|].
  cbn [perform_all map]. rewrite perform_closed. cbn [fst snd].
  rewrite IH. reflexivity.
Qed.

End Close.

Lemma after_close_everything_is_empty_witness :
  perform_all drop_base
    [CallFetchone; CallFetchmany (Some 5); CallFetchall; CallAsPandas; CallClose; CallFetchone]
    (closed drop_base (fetchone Demo.opened).2)
  = ([Val (ARow None); Val (ARows []); Val (ARows []); Val (ATable empty_DataFrame);
      Val ADone; Val (ARow None)],
     closed drop_base (fetchone Demo.opened).2).
Proof.
  refine (proj2 (proj2 (proj2 (proj2 (proj2 (proj2
    (after_close_everything_is_empty drop_base _ (fetchone Demo.opened).2
       [CallFetchone; CallFetchmany (Some 5); CallFetchall; CallAsPandas; CallClose;
        CallFetchone]))))))).
  intros b. reflexivity.
Defined.

(** ** The size of a chunk *)

Lemma effective_size_arraysize a : effective_size (Some a) a = a.
Proof.
  unfold effective_size. destruct ((a =? 0) || (a <=? 0)); reflexivity.
Qed.

Lemma fetchmany_loop_length n : forall rows rs rows' rs',
  fetchmany_loop n rows rs = (Val rows', rs') ->
  (length rows' <= length rows + n)%nat.
Proof.
  induction n as [|n IH]; intros rows rs rows' rs'.
  - intros [= <- <-]. lia.
  - rewrite fetchmany_loop_S.
    destruct (fetchone rs) as [[[[|c cs]|]|e] rs1].
    + intros [= <- <-]. lia.
    + intros H. apply IH in H. rewrite length_app in H. simpl in H. lia.
    + intros [= <- <-]. lia.
    + discriminate.
Qed.

(** C9. [fetchmany] called with [None], zero or a negative size does
    what [fetchmany] called with the configured arraysize does, and
    returns at most arraysize rows. *)
Theorem fetchmany_defaults_to_arraysize size rs :
  size_not_given size ->
  fetchmany size rs = fetchmany (Some (_arraysize (conf rs))) rs /\
  (forall rows rs', fetchmany size rs = (Val rows, rs') ->
     Z.of_nat (length rows) <= Z.max 0 (_arraysize (conf rs))).
Proof.
  intros Hs.
  assert (He : effective_size size (_arraysize (conf rs)) = _arraysize (conf rs)).
  { destruct size as [n|]; [|reflexivity]. simpl in Hs. unfold effective_size.
    destruct (n =? 0) eqn:E1; [reflexivity|].
    destruct (n <=? 0) eqn:E2; [reflexivity | lia]. }
  split.
  - rewrite !fetchmany_unfold, He, effective_size_arraysize. reflexivity.
  - intros rows rs'. rewrite fetchmany_unfold, He. intros H.
    apply fetchmany_loop_length in H. simpl in H. lia.
Qed.

Lemma fetchmany_defaults_to_arraysize_witness :
  fetchmany (Some (-3)) Demo.opened = fetchmany (Some 2) Demo.opened.
Proof.
  refine (proj1 (fetchmany_defaults_to_arraysize (Some (-3)) Demo.opened _)).
  simpl. lia.
Defined.

Example demo_fetchmany_none :
  (fetchmany None Demo.opened).1 = Val [[PInt 1; PStr "a"]; [PInt 2; PStr "b"]].
Proof. vm_compute. reflexivity. Qed.

(** ** An empty description *)

Lemma empty_description_fetchone_calls n : forall rs,
  description_or_empty rs = [] ->
  (n <= remaining rs)%nat ->
  (fetchone_calls n rs).1 = repeat (Val (Some [])) n.
Proof.
  induction n as [|n IH]; intros rs Hd Hn; [reflexivity|].
  cbn [fetchone_calls fst repeat]. rewrite fetchone_unfold.
  unfold remaining in Hn.
  destruct (en_items (_iterrows rs)) as [|x xs] eqn:Ei; [simpl in Hn; lia|].
  rewrite Hd. cbn [row_tuple fst snd]. f_equal.
  apply IH; [exact Hd|]. unfold remaining. cbn. simpl in Hn. lia.
Qed.

(** C10. When the column description is empty, [fetchone] returns the
    empty tuple for each of the remaining rows, while [fetchmany] (for
    every size) and [fetchall] return the empty list, also when rows
    remain: [fetchall], and [fetchmany] whenever its loop runs at all, stop
    right after the first [fetchone], whose result is falsy. *)
Theorem empty_description_yields_nothing rs :
  description_or_empty rs = [] ->
  (fetchone_calls (remaining rs) rs).1 = repeat (Val (Some [])) (remaining rs) /\
  (forall size, (fetchmany size rs).1 = Val []) /\
  (fetchall rs).1 = Val [] /\
  (fetchall rs).2 = (fetchone rs).2 /\
  (forall size, 0 < effective_size size (_arraysize (conf rs)) ->
     (fetchmany size rs).2 = (fetchone rs).2) /\
  (exists o, (fetchone rs).1 = Val o /\ row_truthy o = false).
Proof.
  intros Hd.
  destruct (empty_description_stops rs Hd) as ((o & Ho & Hf) & Hall & Hmany).
  split; [apply empty_description_fetchone_calls; [exact Hd | lia]|].
  split.
  { intros size. rewrite fetchmany_unfold.
    destruct (Z.to_nat _) as [|n]; [reflexivity|]. rewrite Hmany. reflexivity. }
  split; [unfold fetchall; rewrite Hall; reflexivity|].
  split; [unfold fetchall; rewrite Hall; reflexivity|].
  split.
  { intros size Hpos. rewrite fetchmany_unfold.
    destruct (Z.to_nat _) as [|n] eqn:En; [lia|]. rewrite Hmany. reflexivity. }
  exists o. rewrite Ho. split; [reflexivity | exact Hf].
Qed.

Lemma empty_description_yields_nothing_witness :
  (fetchone_calls 3 undescribed).1 = [Val (Some []); Val (Some []); Val (Some [])] /\
  (fetchall undescribed).1 = Val [] /\
  remaining (fetchall undescribed).2 = 2%nat.
Proof.
  pose proof (empty_description_yields_nothing undescribed eq_refl)
    as (H1 & _ & H3 & H4 & _).
  split; [exact H1|]. split; [exact H3|]. rewrite H4. reflexivity.
Defined.

(** ** The columnar path *)

Lemma schema_calls_emit e rs :
  schema_calls (emit e rs) = schema_calls rs ++ (if is_schema_event e then [e] else []).
Proof.
  unfold schema_calls. cbn [trace emit]. rewrite List.filter_app. cbn.
  destruct (is_schema_event e); reflexivity.
Qed.

Lemma get_engine_schema_calls W rs o rs' :
  __get_engine W rs = (o, rs') -> schema_calls rs' = schema_calls rs.
Proof.
  unfold __get_engine, bind, get.
  destruct (String.eqb _ _); [|intros [= _ <-]; reflexivity].
  cbn [probe_engines]. unfold bind, modify, ret, throw.
  destruct (import_module W "pyarrow");
    [intros [= _ <-] | | intros [= _ <-]];
    rewrite ?schema_calls_emit, ?app_nil_r; try reflexivity.
  destruct (import_module W "fastparquet"); intros [= _ <-];
    rewrite ?schema_calls_emit, ?app_nil_r; reflexivity.
Qed.

Lemma read_parquet_empty_manifest W engine rs :
  read_data_manifest W = Val [] ->
  _read_parquet W engine rs
  = (Val empty_DataFrame, set_data_manifest [] (emit EvReadDataManifest rs)).
Proof.
  intros H. unfold _read_parquet, _read_data_manifest, bind, modify, lift.
  rewrite H. reflexivity.
Qed.

(** C4. On the UNLOAD path, when the manifest resolves to the empty list,
    [_read_parquet] returns the empty table whatever the engine, and
    [_as_pandas] returns it with the metadata set to the empty sequence
    and without any schema-recovery event: [_read_parquet_schema] is not
    entered and neither schema reader is called. *)
Theorem empty_manifest_skips_schema_recovery W rs engine rs1 :
  read_data_manifest W = Val [] ->
  is_unload rs = true ->
  __get_engine W rs = (Val engine, rs1) ->
  (forall engine', (_read_parquet W engine' rs).1 = Val empty_DataFrame) /\
  (_as_pandas W rs).1 = Val empty_DataFrame /\
  df_len empty_DataFrame = 0%nat /\
  _metadata (base (_as_pandas W rs).2) = Some [] /\
  schema_calls (_as_pandas W rs).2 = schema_calls rs.
Proof.
  intros Hm Hu He.
  split; [intros engine'; rewrite read_parquet_empty_manifest by exact Hm; reflexivity|].
  assert (Hp : _as_pandas W rs
               = (Val empty_DataFrame,
                  set_metadata (Some [])
                    (set_data_manifest [] (emit EvReadDataManifest rs1)))).
  { unfold _as_pandas. unfold bind at 1. cbn [get]. rewrite Hu.
    rewrite (bind_val _ _ _ _ _ He).
    rewrite (bind_val _ _ _ _ _ (read_parquet_empty_manifest W engine rs1 Hm)).
    reflexivity. }
  rewrite Hp. cbn [fst snd].
  repeat split.
  unfold schema_calls. cbn. rewrite List.filter_app. cbn. rewrite app_nil_r.
  apply (get_engine_schema_calls _ _ _ _ He).
Qed.

Lemma empty_manifest_skips_schema_recovery_witness :
  (_as_pandas Demo.empty_unload_world (Demo.unloading "auto")).1 = Val empty_DataFrame /\
  schema_calls (_as_pandas Demo.empty_unload_world (Demo.unloading "auto")).2 = [].
Proof.
  pose proof (empty_manifest_skips_schema_recovery Demo.empty_unload_world
                (Demo.unloading "auto") "pyarrow"
                (emit (EvImport "pyarrow") (Demo.unloading "auto"))
                eq_refl eq_refl eq_refl) as (_ & H1 & _ & _ & H2).
  split; [exact H1 | exact H2].
Defined.

(** Where the manifest is not empty the schema is recovered: the empty
    manifest above is what keeps [_read_parquet_schema] from running. *)
Example nonempty_manifest_recovers_schema :
  schema_calls
    (_as_pandas
       (Demo.world_with Imported (Val ["s3://bkt/out/part-0000.parquet"])
          (fun _ => Val Demo.table))
       (Demo.unloading "pyarrow")).2
  = [EvReadParquetSchema "pyarrow"; EvPyarrowSchema "bkt/out/"].
Proof. vm_compute. reflexivity. Qed.

(** *** Deriving the read root *)

Lemma append_nil_l s : "" +:+ s = s.
Proof. reflexivity. Qed.

Lemma append_cons c a b : String c a +:+ b = String c (a +:+ b).
Proof. reflexivity. Qed.

Lemma split_nonempty sep s : PyStr.split sep s <> [].
Proof.
  destruct s as [|c s']; cbn [PyStr.split]; [discriminate|].
  destruct (Ascii.eqb c sep); [discriminate|].
  destruct (PyStr.split sep s'); discriminate.
Qed.

Lemma split_no_sep sep s :
  PyStr.has_char sep s = false -> PyStr.split sep s = [s].
Proof.
  induction s as [|c s' IH]; cbn [PyStr.has_char PyStr.split]; [reflexivity|].
  intros [Hc Hs]%orb_false_elim. rewrite Hc, (IH Hs). reflexivity.
Qed.

Lemma split_app_sep sep a b :
  PyStr.split sep (a +:+ String sep b) = PyStr.split sep a ++ PyStr.split sep b.
Proof.
  induction a as [|c a' IH]; rewrite ?append_nil_l, ?append_cons; cbn [PyStr.split].
  - rewrite Ascii.eqb_refl. reflexivity.
  - destruct (Ascii.eqb c sep); [rewrite IH; reflexivity|].
    rewrite IH. pose proof (split_nonempty sep a') as Hne.
    destruct (PyStr.split sep a') as [|p ps]; [congruence | reflexivity].
Qed.

Lemma join_cons2 sep p q r :
  PyStr.join sep (p :: q :: r) = p +:+ sep +:+ PyStr.join sep (q :: r).
Proof. reflexivity. Qed.

Lemma join_split sep s :
  PyStr.join (String sep EmptyString) (PyStr.split sep s) = s.
Proof.
  induction s as [|c s' IH]; cbn [PyStr.split]; [reflexivity|].
  pose proof (split_nonempty sep s') as Hne.
  destruct (Ascii.eqb c sep) eqn:Ec.
  - apply Ascii.eqb_eq in Ec. subst c.
    destruct (PyStr.split sep s') as [|p ps]; [congruence|].
    rewrite join_cons2, IH. reflexivity.
  - destruct (PyStr.split sep s') as [|p ps]; [congruence|].
    destruct ps as [|p' ps'].
    + change (p = s') in IH. subst. reflexivity.
    + rewrite join_cons2 in *. rewrite <- IH. reflexivity.
Qed.

Lemma drop_last_snoc {A} (l : list A) x : PyStr.drop_last (l ++ [x]) = l.
Proof.
  induction l as [|y l IH]; [reflexivity|].
  cbn [app PyStr.drop_last]. rewrite IH.
  destruct l; reflexivity.
Qed.

(** The root derived from [dir/file] is [dir/]. *)
Lemma unload_root_parent dir file :
  PyStr.has_char "/" file = false ->
  unload_root (dir +:+ "/" +:+ file) = dir +:+ "/".
Proof.
  intros Hf. unfold unload_root.
  change ("/" +:+ file) with (String "/" file).
  rewrite split_app_sep, (split_no_sep _ _ Hf), drop_last_snoc.
  change "/" with (String "/"%char EmptyString) at 1.
  rewrite join_split. reflexivity.
Qed.

Lemma bind_get {A} (k : ResultSet -> M A) rs : bind get k rs = k rs rs.
Proof. reflexivity. Qed.

Lemma bind_modify {A} g (k : unit -> M A) rs : bind (modify g) k rs = k tt (g rs).
Proof. reflexivity. Qed.

Lemma try_except_trace_reads {A} (m : M A) msg rs :
  parquet_reads
    (try_except m (fun e => run log_exception msg >> throw (wrap_operational e)) rs).2
  = parquet_reads (m rs).2.
Proof.
  unfold try_except. destruct (m rs) as [[a|e] rs1]; [reflexivity|].
  destruct (is_Exception (exn_cls e)); [|reflexivity].
  cbn. unfold parquet_reads. cbn. rewrite flat_map_app. cbn. apply app_nil_r.
Qed.

Lemma read_data_manifest_val W m rs :
  read_data_manifest W = Val m ->
  _read_data_manifest W rs = (Val m, emit EvReadDataManifest rs).
Proof.
  intros H. unfold _read_data_manifest, bind, modify, lift. rewrite H. reflexivity.
Qed.

Lemma preserves_snd {X A} (f : ResultSet -> X) (m : M A) rs :
  preserves f m -> f (m rs).2 = f rs.
Proof. intros H. destruct (m rs) as [o rs'] eqn:E. exact (H _ _ _ E). Qed.

Lemma parquet_reads_emit e rs :
  parquet_reads (emit e rs)
  = parquet_reads rs ++ match e with EvReadParquet c => [pq_path c] | _ => [] end.
Proof. unfold parquet_reads. cbn [trace emit]. rewrite flat_map_app. cbn. apply f_equal, app_nil_r. Qed.

(** C5. When no unload location was configured (none, or the empty
    string) and the manifest's first entry is [dir/file], [_read_parquet]
    sets the unload location to [dir/], the parent directory of that
    entry with a trailing separator, and this root (with [*] appended for
    fastparquet) is the one path it hands to the reader. For the manifest
    [["s3://bkt/out/part-0000.parquet"]] the root is ["s3://bkt/out/"]. *)
Theorem unload_root_is_parent_of_first_entry W engine rs dir file rest :
  read_data_manifest W = Val ((dir +:+ "/" +:+ file) :: rest) ->
  PyStr.truthy (_unload_location rs) = false ->
  PyStr.has_char "/" file = false ->
  _unload_location (_read_parquet W engine rs).2 = Some (dir +:+ "/") /\
  parquet_reads (_read_parquet W engine rs).2
  = parquet_reads rs ++ read_target engine (dir +:+ "/").
Proof.
  intros Hm Hu Hf.
  unfold _read_parquet.
  rewrite (bind_val _ _ _ _ _ (read_data_manifest_val W _ rs Hm)).
  rewrite bind_modify, bind_get. cbn [_unload_location set_data_manifest emit].
  rewrite Hu. rewrite bind_modify, bind_get.
  rewrite (unload_root_parent _ _ Hf).
  cbn [_unload_location set_unload_location default].
  unfold read_target.
  destruct (String.eqb engine "pyarrow"); [|destruct (String.eqb engine "fastparquet")].
  1, 2: rewrite bind_ret_l; split;
    [ rewrite preserves_snd by frame; reflexivity
    | rewrite try_except_trace_reads; cbn [bind modify lift snd];
      rewrite parquet_reads_emit; f_equal;
      change (parquet_reads (emit EvReadDataManifest rs) = parquet_reads rs);
      rewrite parquet_reads_emit; apply app_nil_r ].
  cbn. split; [reflexivity|].
  change (parquet_reads (emit EvReadDataManifest rs) = parquet_reads rs ++ []).
  apply parquet_reads_emit.
Qed.

Lemma unload_root_is_parent_of_first_entry_witness :
  _unload_location (_read_parquet Demo.world "pyarrow" (Demo.unloading "pyarrow")).2
  = Some "s3://bkt/out/" /\
  parquet_reads (_read_parquet Demo.world "pyarrow" (Demo.unloading "pyarrow")).2
  = ["s3://bkt/out/"].
Proof.
  apply (unload_root_is_parent_of_first_entry Demo.world "pyarrow"
           (Demo.unloading "pyarrow") "s3://bkt/out" "part-0000.parquet" []);
    reflexivity.
Defined.

(** ** Engine selection *)

Lemma startswith_self_app x b : PyStr.startswith (x +:+ b) x = true.
Proof.
  induction x as [|c x IH]; [reflexivity|].
  rewrite append_cons. cbn [PyStr.startswith]. rewrite Ascii.eqb_refl. exact IH.
Qed.

Lemma startswith_app_l x : forall s b,
  PyStr.startswith s x = true -> PyStr.startswith (s +:+ b) x = true.
Proof.
  induction x as [|c x IH]; intros s b; [reflexivity|].
  destruct s as [|d s]; cbn [PyStr.startswith]; [discriminate|].
  rewrite append_cons. cbn [PyStr.startswith].
  destruct (Ascii.eqb c d); [apply IH | discriminate].
Qed.

Lemma contains_startswith s x : PyStr.startswith s x = true -> PyStr.contains s x = true.
Proof. intros H. destruct s; cbn [PyStr.contains]; rewrite H; reflexivity. Qed.

Lemma contains_app_l s x b :
  PyStr.contains s x = true -> PyStr.contains (s +:+ b) x = true.
Proof.
  induction s as [|c s IH].
  - cbn [PyStr.contains]. rewrite orb_false_r. intros H.
    apply contains_startswith. apply (startswith_app_l x "" b H).
  - cbn [PyStr.contains]. rewrite append_cons. cbn [PyStr.contains].
    intros [H|H]%orb_prop.
    + rewrite <- append_cons, (startswith_app_l _ _ b H). reflexivity.
    + rewrite (IH H). apply orb_true_r.
Qed.

Lemma contains_app_r a s x :
  PyStr.contains s x = true -> PyStr.contains (a +:+ s) x = true.
Proof.
  intros H. induction a as [|c a IH]; [exact H|].
  rewrite append_cons. cbn [PyStr.contains]. rewrite IH. apply orb_true_r.
Qed.

Lemma contains_self x : PyStr.contains x x = true.
Proof.
  apply contains_startswith.
  induction x as [|c x IH]; [reflexivity|].
  cbn [PyStr.startswith]. rewrite Ascii.eqb_refl. exact IH.
Qed.

(** The message names both engines and quotes both import failures. *)
Lemma no_engine_message_contains m1 m2 msg :
  msg = no_engine_message (("" +:+ nl +:+ " - " +:+ m1) +:+ nl +:+ " - " +:+ m2) ->
  PyStr.contains msg "pyarrow" = true /\
  PyStr.contains msg "fastparquet" = true /\
  PyStr.contains msg m1 = true /\
  PyStr.contains msg m2 = true.
Proof.
  intros ->. unfold no_engine_message.
  split; [|split; [|split]].
  - apply contains_app_l. reflexivity.
  - apply contains_app_l. reflexivity.
  - do 5 apply contains_app_r. apply contains_app_l.
    do 3 apply contains_app_r. apply contains_self.
  - do 5 apply contains_app_r. do 3 apply contains_app_r. apply contains_self.
Qed.

(** C6. With the preference ["auto"], [__get_engine] imports [pyarrow]
    first and returns the imported module's name if that succeeds without
    trying anything else; otherwise it imports [fastparquet] and returns
    that module's name if it imports; if both raise [ImportError] it
    raises an [ImportError] whose message contains both engine names and
    both import failure messages. *)
Theorem auto_engine_probes_pyarrow_then_fastparquet W rs :
  _engine (conf rs) = "auto" ->
  match import_module W "pyarrow", import_module W "fastparquet" with
  | Imported name, _ =>
      __get_engine W rs = (Val name, emit (EvImport "pyarrow") rs)
  | NotImportable _, Imported name =>
      __get_engine W rs
      = (Val name, emit (EvImport "fastparquet") (emit (EvImport "pyarrow") rs))
  | NotImportable m1, NotImportable m2 =>
      exists msg,
        __get_engine W rs
        = (Raise (MkExn ImportError [PStr msg]),
           emit (EvImport "fastparquet") (emit (EvImport "pyarrow") rs)) /\
        PyStr.contains msg "pyarrow" = true /\
        PyStr.contains msg "fastparquet" = true /\
        PyStr.contains msg m1 = true /\
        PyStr.contains msg m2 = true
  | ImportCrashed e, _ =>
      __get_engine W rs = (Raise e, emit (EvImport "pyarrow") rs)
  | NotImportable _, ImportCrashed e =>
      __get_engine W rs
      = (Raise e, emit (EvImport "fastparquet") (emit (EvImport "pyarrow") rs))
  end.
Proof.
  intros Hauto. unfold __get_engine. rewrite bind_get, Hauto.
  change (String.eqb "auto" "auto") with true. cbv iota.
  cbn [probe_engines]. rewrite bind_modify.
  destruct (import_module W "pyarrow") as [n1|m1|e1]; [reflexivity| |reflexivity].
  rewrite bind_modify.
  destruct (import_module W "fastparquet") as [n2|m2|e2]; [reflexivity| |reflexivity].
  eexists. split; [reflexivity|]. apply no_engine_message_contains. reflexivity.
Qed.

Lemma auto_engine_probes_pyarrow_then_fastparquet_witness :
  exists msg,
    __get_engine Demo.world (Demo.unloading "auto")
    = (Raise (MkExn ImportError [PStr msg]),
       emit (EvImport "fastparquet") (emit (EvImport "pyarrow") (Demo.unloading "auto"))) /\
    PyStr.contains msg "pyarrow" = true /\
    PyStr.contains msg "fastparquet" = true /\
    PyStr.contains msg "No module named 'pyarrow'" = true /\
    PyStr.contains msg "No module named 'fastparquet'" = true.
Proof.
  exact (auto_engine_probes_pyarrow_then_fastparquet Demo.world (Demo.unloading "auto")
           eq_refl).
Defined.

Example demo_no_engine_message :
  (__get_engine Demo.world (Demo.unloading "auto")).1
  = Raise (MkExn ImportError
      [PStr ("Unable to find a usable engine; tried using: 'pyarrow', 'fastparquet'." +:+ nl +:+
             "A suitable version of pyarrow or fastparquet is required for parquet support." +:+ nl +:+
             "Trying to import the above resulted in these errors:" +:+ nl +:+
             " - No module named 'pyarrow'" +:+ nl +:+
             " - No module named 'fastparquet'")]).
Proof. vm_compute. reflexivity. Qed.

Example explicit_engine_is_not_probed :
  __get_engine Demo.world (Demo.unloading "fastparquet")
  = (Val "fastparquet", Demo.unloading "fastparquet").
Proof. reflexivity. Qed.

(** ** The delimited-text path *)

Lemma read_csv_guarded_not_programming_error W path sep header names rs :
  raises_programming_error (read_csv_guarded W path sep header names rs).1 = false.
Proof.
  unfold read_csv_guarded, try_except.
  match goal with |- context [match ?m rs with _ => _ end] => destruct (m rs) as [[df|e] rs'] end;
    [reflexivity|].
  destruct (is_Exception (exn_cls e)) eqn:E; [reflexivity|].
  cbn. destruct (exn_cls e); try discriminate E. reflexivity.
Qed.

Lemma get_content_length_run W rs :
  _get_content_length W rs = (get_content_length W, emit EvGetContentLength rs).
Proof. reflexivity. Qed.

(** C7. Provided the base class's [_get_content_length], which is not
    part of the module, does not itself raise a [ProgrammingError],
    [_read_csv] raises a [ProgrammingError] exactly when the output
    location is unset or empty; and when it is set but ends in neither
    [.csv] nor [.txt], [_read_csv] returns the empty table, raising
    nothing and touching nothing. *)
Theorem read_csv_programming_error_iff_no_location W rs :
  (forall e, get_content_length W = Raise e -> is_ProgrammingError (exn_cls e) = false) ->
  raises_programming_error (_read_csv W rs).1
  = negb (PyStr.truthy (output_location (base rs))) /\
  match output_location (base rs) with
  | Some loc =>
      if PyStr.truthy (Some loc) && negb (PyStr.endswith_any loc [".csv"; ".txt"])
      then _read_csv W rs = (Val empty_DataFrame, rs)
      else True
  | None => True
  end.
Proof.
  intros Hlen. unfold _read_csv. rewrite bind_get.
  destruct (output_location (base rs)) as [[|c loc]|]; [split; reflexivity | | split; reflexivity].
  cbn [PyStr.truthy negb andb].
  destruct (PyStr.endswith_any (String c loc) [".csv"; ".txt"]); cbn [negb];
    [|split; reflexivity].
  split; [|exact I].
  unfold bind at 1. rewrite get_content_length_run.
  destruct (get_content_length W) as [len|e] eqn:El; [|exact (Hlen e eq_refl)].
  destruct (negb (len =? 0) && PyStr.endswith (String c loc) ".txt");
    [apply read_csv_guarded_not_programming_error|].
  destruct (negb (len =? 0) && PyStr.endswith (String c loc) ".csv");
    [apply read_csv_guarded_not_programming_error | reflexivity].
Qed.

Lemma read_csv_programming_error_iff_no_location_witness :
  raises_programming_error (_read_csv Demo.world ddl_result).1 = false /\
  _read_csv Demo.world ddl_result = (Val empty_DataFrame, ddl_result).
Proof.
  apply (read_csv_programming_error_iff_no_location Demo.world ddl_result).
  intros e [=].
Defined.

Example read_csv_without_location :
  (_read_csv Demo.world
     (blank (super_init (Some STATE_SUCCEEDED) None None None) (Demo.config 2 false "auto") None)).1
  = Raise (MkExn ProgrammingError [PStr "OutputLocation is none or empty."]).
Proof. reflexivity. Qed.

Example read_csv_text_file :
  (_read_csv Demo.world (blank Demo.select_base (Demo.config 2 false "auto") None)).1
  = Val Demo.table.
Proof. vm_compute. reflexivity. Qed.

(** ** Failures of the columnar read *)

Lemma logged_emit e rs :
  logged (emit e rs)
  = logged rs ++ match e with EvLogException m => [m] | _ => [] end.
Proof.
  unfold logged. cbn [trace emit]. rewrite flat_map_app. cbn. apply f_equal, app_nil_r.
Qed.

Lemma logged_set_data_manifest m rs : logged (set_data_manifest m rs) = logged rs.
Proof. reflexivity. Qed.

Lemma logged_set_unload_location l rs : logged (set_unload_location l rs) = logged rs.
Proof. reflexivity. Qed.

(** What [_read_parquet] does when the reader fails with an [Exception]:
    it raises an [OperationalError] with the same [args], and the one
    message it logs names the query's output location. *)
Lemma read_parquet_failure W engine rs first rest e :
  read_data_manifest W = Val (first :: rest) ->
  engine = "pyarrow" \/ engine = "fastparquet" ->
  (forall c, pd_read_parquet W c = Raise e) ->
  is_Exception (exn_cls e) = true ->
  (_read_parquet W engine rs).1 = Raise (MkExn OperationalError (exn_args e)) /\
  logged (_read_parquet W engine rs).2
  = logged rs ++ ["Failed to read " +:+ default "None" (output_location (base rs)) +:+ "."].
Proof.
  intros Hm Hengine Hpq He.
  unfold _read_parquet.
  rewrite (bind_val _ _ _ _ _ (read_data_manifest_val W _ rs Hm)).
  rewrite bind_modify, bind_get. cbn [_unload_location set_data_manifest emit].
  destruct (PyStr.truthy (_unload_location rs));
    [rewrite bind_ret_l | rewrite bind_modify]; rewrite bind_get;
    (destruct Hengine as [-> | ->]; cbn [String.eqb Ascii.eqb Bool.eqb];
     rewrite bind_ret_l; unfold log_exception, try_except, bind, modify, lift, throw;
     rewrite Hpq, He; cbn [fst snd]; (split; [reflexivity|]);
     repeat first [rewrite logged_emit | rewrite logged_set_data_manifest
                  | rewrite logged_set_unload_location];
     cbn [base set_data_manifest set_unload_location emit];
     rewrite !app_nil_r; reflexivity).
Qed.

(** C8, on a concrete UNLOAD result set. The output location is
    [s3://bkt/results/q2.csv], the manifest's one entry is
    [s3://bkt/out/part-0000.parquet], the engine is pyarrow and the reader
    fails with [OSError("boom")]. [_read_parquet] raises
    [OperationalError("boom")]; the path it tried to read is the unload
    location [s3://bkt/out/]; the message it logs names the output location
    instead and does not mention the path it tried to read. *)
Theorem read_parquet_failure_logs_the_output_location :
  let r := _read_parquet Demo.world "pyarrow" (Demo.unloading "pyarrow") in
  r.1 = Raise (MkExn OperationalError [PStr "boom"]) /\
  _unload_location r.2 = Some "s3://bkt/out/" /\
  parquet_reads r.2 = ["s3://bkt/out/"] /\
  logged r.2 = ["Failed to read s3://bkt/results/q2.csv."] /\
  existsb (fun m => PyStr.contains m "s3://bkt/out/") (logged r.2) = false.
Proof. vm_compute. repeat split. Qed.

(** The sibling [_read_parquet_schema] logs the path it failed to read. *)
Example read_parquet_schema_failure_logs_its_path :
  let W := MkWorld Imported (Val ["s3://bkt/out/part-0000.parquet"]) (Val 42)
             (fun _ => Val Demo.table) (fun df _ => Val df) (fun _ => Val Demo.table)
             (fun _ => Val ("bkt", "out/")) (fun _ => Raise Demo.os_error)
             (fun _ => Raise Demo.os_error) in
  let r := _read_parquet_schema W "pyarrow"
             (set_unload_location (Some "s3://bkt/out/") (Demo.unloading "pyarrow")) in
  r.1 = Raise (MkExn OperationalError [PStr "boom"]) /\
  logged r.2 = ["Failed to read schema bkt/out/."].
Proof. vm_compute. repeat split. Qed.

(** * Further properties of the module *)

(** ** What the cursor operations keep *)

(** A property of the object that no call of [fetchone] destroys,
    whatever the call returns or raises. *)
Definition fetch_invariant (P : ResultSet -> Prop) : Prop :=
  forall rs o rs', fetchone rs = (o, rs') -> P rs -> P rs'.

(** The calls that read through the cursor or the table. *)
Definition is_read (c : call) : bool :=
  match c with CallClose => false | _ => true end.

(** The cells of a record under the description's columns, in
    description order. *)
Definition tuple_of (desc : list column) (x : record) : tuple :=
  map (fun d => default PNone (x !! col_name d)) desc.

(** The record has a cell for every described column. *)
Definition complete (desc : list column) (x : record) : Prop :=
  Forall (fun d => is_Some (x !! col_name d)) desc.

(** The first described column the record has no cell for. *)
Fixpoint first_missing (desc : list column) (x : record) : option string :=
  match desc with
  | [] => None
  | d :: ds =>
      match x !! col_name d with
      | None => Some (col_name d)
      | Some _ => first_missing ds x
      end
  end.

Lemma fetchmany_loop_invariant P :
  fetch_invariant P ->
  forall n rows rs o rs', fetchmany_loop n rows rs = (o, rs') -> P rs -> P rs'.
Proof.
  intros HP. induction n as [|n IH]; intros rows rs o rs'.
  - intros [= _ <-]. auto.
  - rewrite fetchmany_loop_S.
    destruct (fetchone rs) as [[[[|c cs]|]|e] rs1] eqn:E;
      try (intros [= _ <-] H; exact (HP _ _ _ E H)).
    intros H1 H. exact (IH _ _ _ _ H1 (HP _ _ _ E H)).
Qed.

Lemma fetchall_loop_invariant P :
  fetch_invariant P ->
  forall m rs rows o rs',
    remaining rs = m -> fetchall_loop rows rs = (o, rs') -> P rs -> P rs'.
Proof.
  intros HP m. induction m as [m IH] using lt_wf_ind. intros rs rows o rs' Hm.
  rewrite fetchall_loop_step.
  destruct (fetchone rs) as [[[[|c cs]|]|e] rs1] eqn:E;
    try (intros [= _ <-] H; exact (HP _ _ _ E H)).
  intros H1 H.
  refine (IH (remaining rs1) _ rs1 _ _ _ eq_refl H1 (HP _ _ _ E H)).
  rewrite <- Hm. eapply fetchone_truthy_decreases, E.
Qed.

Lemma perform_read_invariant P sc c rs o rs' :
  fetch_invariant P ->
  is_read c = true ->
  perform sc c rs = (o, rs') -> P rs -> P rs'.
Proof.
  intros HP Hc. destruct c; try discriminate Hc; cbn [perform]; unfold bind.
  - destruct (fetchone rs) as [[r|e] rs1] eqn:E; intros [= _ <-]; exact (HP _ _ _ E).
  - destruct (fetchmany size rs) as [[r|e] rs1] eqn:E; intros [= _ <-];
      exact (fetchmany_loop_invariant P HP _ _ _ _ _ E).
  - destruct (fetchall rs) as [[r|e] rs1] eqn:E; intros [= _ <-];
      exact (fetchall_loop_invariant P HP _ _ _ _ _ eq_refl E).
  - intros [= _ <-]. auto.
Qed.

Lemma perform_all_read_invariant P sc cs : forall rs os rs',
  fetch_invariant P ->
  forallb is_read cs = true ->
  perform_all sc cs rs = (os, rs') -> P rs -> P rs'.
Proof.
  induction cs as [|c cs IH]; intros rs os rs' HP.
  - intros _ [= _ <-]. auto.
  - cbn [forallb perform_all]. intros [Hc Hcs]%andb_prop.
    destruct (perform sc c rs) as [o rs1] eqn:E1. cbn [fst snd].
    destruct (perform_all sc cs rs1) as [os1 rs2] eqn:E2. cbn [fst snd].
    intros [= _ <-] H.
    exact (IH _ _ _ HP Hcs E2 (perform_read_invariant P sc c _ _ _ HP Hc E1 H)).
Qed.

(** The row number is the number of rows taken off a table of [total]
    rows. *)
Definition consumed (total : Z) (rs : ResultSet) : Prop :=
  in_step rs /\
  en_index (_iterrows rs) + Z.of_nat (remaining rs) = total.

Lemma consumed_advance total x xs rs :
  en_items (_iterrows rs) = x :: xs ->
  consumed total rs -> consumed total (advance xs rs).
Proof.
  unfold consumed, in_step, remaining. intros Ei [_ H]. rewrite Ei in H.
  split; [reflexivity|]. cbn in *. lia.
Qed.

Lemma consumed_fetch_invariant total : fetch_invariant (consumed total).
Proof.
  intros rs o rs'. rewrite fetchone_unfold.
  destruct (en_items (_iterrows rs)) as [|x xs] eqn:Ei.
  - intros [= _ <-]. auto.
  - destruct (row_tuple x _); intros [= _ <-]; apply (consumed_advance _ _ _ _ Ei).
Qed.

Lemma construct_consumed W b c ul rs0 :
  construct W b c ul = (Val tt, rs0) ->
  _rownumber b = Some 0 ->
  consumed (Z.of_nat (df_len (_df rs0))) rs0.
Proof.
  intros Hc Hb. destruct (construct_fresh _ _ _ _ _ Hc) as [Hr Hi].
  split; [unfold in_step; rewrite Hr, Hi; exact Hb|].
  rewrite Hi. unfold construct, __init__ in Hc.
  apply bind_val_inv in Hc as (rs1 & s1 & _ & H).
  apply bind_val_inv in H as (u & s2 & _ & H).
  apply bind_val_inv in H as (rs2 & s3 & [= <- <-] & H).
  injection H as <-. unfold remaining, df_len, to_dict_records. cbn.
  rewrite length_map. lia.
Qed.

(** X1. On a constructed result set, after any sequence of [fetchone],
    [fetchmany], [fetchall] and [as_pandas] calls, whatever they returned
    or raised, [rownumber] is the number of rows of the table minus the
    number of rows the cursor has not yielded yet. *)
Theorem rownumber_is_rows_consumed W st loc q meta c ul rs0 sc cs os rs :
  construct W (super_init st loc q meta) c ul = (Val tt, rs0) ->
  forallb is_read cs = true ->
  perform_all sc cs rs0 = (os, rs) ->
  rownumber rs = Some (Z.of_nat (df_len (_df rs0)) - Z.of_nat (remaining rs)).
Proof.
  intros Hc Hcs Hp.
  pose proof (construct_consumed _ _ _ _ _ Hc eq_refl) as H0.
  destruct (perform_all_read_invariant _ sc cs _ _ _
              (consumed_fetch_invariant _) Hcs Hp H0) as [Hin Hsum].
  unfold in_step in Hin. rewrite Hin. f_equal. lia.
Qed.

Lemma rownumber_is_rows_consumed_witness :
  rownumber
    (perform_all drop_base [CallFetchone; CallFetchmany (Some 5); CallAsPandas] Demo.opened).2
  = Some (3 - 0).
Proof.
  refine (rownumber_is_rows_consumed Demo.world (Some STATE_SUCCEEDED)
    (Some "s3://bkt/results/q1.csv") (Some "SELECT id, name FROM t") (Some Demo.cols)
    (Demo.config 2 false "auto") None Demo.opened drop_base
    [CallFetchone; CallFetchmany (Some 5); CallAsPandas]
    (perform_all drop_base [CallFetchone; CallFetchmany (Some 5); CallAsPandas] Demo.opened).1
    (perform_all drop_base [CallFetchone; CallFetchmany (Some 5); CallAsPandas] Demo.opened).2
    _ _ _).
  - vm_compute. reflexivity.
  - reflexivity.
  - vm_compute. reflexivity.
Defined.

(** Everything of the object but the cursor position. *)
Definition outside_cursor (rs : ResultSet)
  : DataFrame * Config * option (list column) * option string * list string * list event :=
  (_df rs, conf rs, _metadata (base rs), _unload_location rs, _data_manifest rs, trace rs).

Lemma outside_cursor_fetch_invariant v :
  fetch_invariant (fun rs => outside_cursor rs = v).
Proof.
  intros rs o rs'. rewrite fetchone_unfold.
  destruct (en_items (_iterrows rs)) as [|x xs]; [intros [= _ <-]; auto|].
  destruct (row_tuple x _); intros [= _ <-]; auto.
Qed.

(** X2. No sequence of [fetchone], [fetchmany], [fetchall] and
    [as_pandas] calls changes the materialized table, the options, the
    column description, the unload location, the cached manifest or the
    event trace: the cursor only moves over the table, [as_pandas] keeps
    answering with the table that was built, and fetching reaches nothing
    outside the object. *)
Theorem reads_move_only_the_cursor sc cs rs os rs' :
  forallb is_read cs = true ->
  perform_all sc cs rs = (os, rs') ->
  outside_cursor rs' = outside_cursor rs /\
  as_pandas rs' = (Val (_df rs), rs').
Proof.
  intros Hcs Hp.
  pose proof (perform_all_read_invariant _ sc cs _ _ _
                (outside_cursor_fetch_invariant (outside_cursor rs)) Hcs Hp eq_refl) as H.
  split; [exact H|].
  unfold as_pandas. rewrite bind_get. injection H as -> _ _ _ _ _. reflexivity.
Qed.

Lemma reads_move_only_the_cursor_witness :
  as_pandas (perform_all drop_base [CallFetchall; CallFetchone] Demo.opened).2
  = (Val Demo.table, (perform_all drop_base [CallFetchall; CallFetchone] Demo.opened).2).
Proof.
  refine (proj2 (reads_move_only_the_cursor drop_base [CallFetchall; CallFetchone]
    Demo.opened (perform_all drop_base [CallFetchall; CallFetchone] Demo.opened).1
    (perform_all drop_base [CallFetchall; CallFetchone] Demo.opened).2 _ _)).
  - reflexivity.
  - vm_compute. reflexivity.
Defined.

(** ** What [fetchone] hands out *)

Lemma row_tuple_first_missing x desc :
  row_tuple x desc =
  match first_missing desc x with
  | None => Val (tuple_of desc x)
  | Some name => Raise (MkExn KeyError [PStr name])
  end.
Proof.
  induction desc as [|d ds IH]; cbn [row_tuple first_missing tuple_of map]; [reflexivity|].
  destruct (x !! col_name d) as [v|]; [|reflexivity].
  rewrite IH. destruct (first_missing ds x); reflexivity.
Qed.

Lemma fetchone_advance rs :
  fetchone rs =
  match en_items (_iterrows rs) with
  | [] => (Val None, rs)
  | x :: xs =>
      (match first_missing (description_or_empty rs) x with
       | None => Val (Some (tuple_of (description_or_empty rs) x))
       | Some name => Raise (MkExn KeyError [PStr name])
       end, advance xs rs)
  end.
Proof.
  rewrite fetchone_unfold.
  destruct (en_items (_iterrows rs)) as [|x xs]; [reflexivity|].
  rewrite row_tuple_first_missing.
  destruct (first_missing _ x); reflexivity.
Qed.

(** X3. [fetchone] on an exhausted cursor returns null and changes
    nothing. Otherwise it takes the next row off the iterator and sets
    [rownumber] to that row's index plus one, and then either returns the
    row's cells under the described columns, in description order, or, if
    the row lacks a described column, raises [KeyError] for the first such
    column: the row is consumed and counted in both cases. *)
Theorem fetchone_cells_or_key_error rs :
  fetchone rs =
  match en_items (_iterrows rs) with
  | [] => (Val None, rs)
  | x :: xs =>
      (match first_missing (description_or_empty rs) x with
       | None => Val (Some (tuple_of (description_or_empty rs) x))
       | Some name => Raise (MkExn KeyError [PStr name])
       end,
       set_rownumber (Some (en_index (_iterrows rs) + 1))
         (set_iterrows (MkEnum (en_index (_iterrows rs) + 1) xs) rs))
  end.
Proof.
  rewrite fetchone_advance. destruct (en_items (_iterrows rs)); reflexivity.
Qed.

Example fetchone_unknown_column :
  let rs := set_metadata (Some [MkColumn "id" "integer"; MkColumn "age" "integer"])
              Demo.opened in
  (fetchone rs).1 = Raise (MkExn KeyError [PStr "age"]) /\
  rownumber (fetchone rs).2 = Some 1 /\
  remaining (fetchone rs).2 = 2%nat.
Proof. vm_compute. repeat split. Qed.

(** ** Draining rows that have every described column *)

(** The object after the cursor has moved over [n] rows, or over all
    that were left if they were fewer. *)
Fixpoint skip_rows (n : nat) (rs : ResultSet) : ResultSet :=
  match n, en_items (_iterrows rs) with
  | S n', _ :: xs => skip_rows n' (advance xs rs)
  | _, _ => rs
  end.

Lemma skip_rows_items n : forall rs,
  en_items (_iterrows (skip_rows n rs)) = drop n (en_items (_iterrows rs)).
Proof.
  induction n as [|n IH]; intros rs; cbn [skip_rows]; [reflexivity|].
  destruct (en_items (_iterrows rs)) as [|x xs] eqn:E.
  - rewrite E. reflexivity.
  - rewrite IH. reflexivity.
Qed.

Lemma complete_first_missing desc x : complete desc x -> first_missing desc x = None.
Proof.
  induction 1 as [|d ds [v Hv] _ IH]; cbn [first_missing]; [reflexivity|].
  rewrite Hv. exact IH.
Qed.

Lemma nonempty_tuple_of desc x : desc <> [] -> exists c cs, tuple_of desc x = c :: cs.
Proof. destruct desc as [|d ds]; [congruence|]. cbn. eauto. Qed.

Lemma fetchmany_loop_complete n : forall rows rs,
  description_or_empty rs <> [] ->
  Forall (complete (description_or_empty rs)) (en_items (_iterrows rs)) ->
  fetchmany_loop n rows rs
  = (Val (rows ++ map (tuple_of (description_or_empty rs)) (take n (en_items (_iterrows rs)))),
     skip_rows n rs).
Proof.
  induction n as [|n IH]; intros rows rs Hd Hall.
  - cbn. rewrite app_nil_r. reflexivity.
  - rewrite fetchmany_loop_S, fetchone_advance. cbn [skip_rows].
    destruct (en_items (_iterrows rs)) as [|x xs] eqn:Ei.
    + cbn. rewrite app_nil_r. reflexivity.
    + inversion Hall as [|? ? Hx Hxs]; subst.
      rewrite (complete_first_missing _ _ Hx).
      destruct (nonempty_tuple_of _ x Hd) as (c & cs & Ht). rewrite Ht.
      rewrite (IH _ (advance xs rs) Hd Hxs).
      cbn [take map]. rewrite Ht, <- app_assoc. reflexivity.
Qed.

Lemma fetchall_loop_complete : forall items rows rs,
  en_items (_iterrows rs) = items ->
  description_or_empty rs <> [] ->
  Forall (complete (description_or_empty rs)) items ->
  fetchall_loop rows rs
  = (Val (rows ++ map (tuple_of (description_or_empty rs)) items),
     skip_rows (length items) rs).
Proof.
  induction items as [|x xs IH]; intros rows rs Ei Hd Hall;
    rewrite fetchall_loop_step, fetchone_advance, Ei.
  - cbn. rewrite app_nil_r. reflexivity.
  - inversion Hall as [|? ? Hx Hxs]; subst.
    rewrite (complete_first_missing _ _ Hx).
    destruct (nonempty_tuple_of _ x Hd) as (c & cs & Ht). rewrite Ht.
    rewrite (IH _ (advance xs rs) eq_refl Hd Hxs).
    cbn [length skip_rows map]. rewrite Ei, Ht, <- app_assoc. reflexivity.
Qed.

(** X4. When the description is not empty and every remaining row has a
    cell for every described column, [fetchall] returns one tuple per
    remaining row, in the rows' order, each holding the row's cells in
    description order, and leaves the cursor exhausted. *)
Theorem fetchall_returns_every_remaining_row rs :
  description_or_empty rs <> [] ->
  Forall (complete (description_or_empty rs)) (en_items (_iterrows rs)) ->
  fetchall rs
  = (Val (map (tuple_of (description_or_empty rs)) (en_items (_iterrows rs))),
     skip_rows (remaining rs) rs) /\
  remaining (skip_rows (remaining rs) rs) = 0%nat.
Proof.
  intros Hd Hall. split.
  - unfold fetchall. rewrite (fetchall_loop_complete _ [] rs eq_refl Hd Hall). reflexivity.
  - unfold remaining. rewrite skip_rows_items, drop_all. reflexivity.
Qed.

(** X5. Under the same conditions [fetchmany] returns the tuples of the
    first [n] remaining rows, where [n] is the size asked for (the
    arraysize when the size is missing or not positive), or of all of them
    if fewer remain; the rows after those are what the cursor yields
    next. *)
Theorem fetchmany_takes_the_next_rows size rs :
  description_or_empty rs <> [] ->
  Forall (complete (description_or_empty rs)) (en_items (_iterrows rs)) ->
  let n := Z.to_nat (effective_size size (_arraysize (conf rs))) in
  fetchmany size rs
  = (Val (map (tuple_of (description_or_empty rs)) (take n (en_items (_iterrows rs)))),
     skip_rows n rs) /\
  en_items (_iterrows (skip_rows n rs)) = drop n (en_items (_iterrows rs)) /\
  length (take n (en_items (_iterrows rs))) = Nat.min n (remaining rs).
Proof.
  intros Hd Hall n. split; [|split].
  - rewrite fetchmany_unfold. apply (fetchmany_loop_complete n [] rs Hd Hall).
  - apply skip_rows_items.
  - apply length_take.
Qed.

Lemma fetchall_returns_every_remaining_row_witness :
  (fetchall Demo.opened).1
  = Val [[PInt 1; PStr "a"]; [PInt 2; PStr "b"]; [PInt 3; PStr "c"]] /\
  remaining (fetchall Demo.opened).2 = 0%nat.
Proof.
  assert (Hd : description_or_empty Demo.opened <> []) by discriminate.
  assert (Hall : Forall (complete (description_or_empty Demo.opened))
                   (en_items (_iterrows Demo.opened))).
  { vm_compute. repeat constructor; eexists; reflexivity. }
  destruct (fetchall_returns_every_remaining_row Demo.opened Hd Hall) as [H1 H2].
  rewrite H1. split; [vm_compute; reflexivity | exact H2].
Defined.

Lemma fetchmany_takes_the_next_rows_witness :
  (fetchmany (Some 2) Demo.opened).1 = Val [[PInt 1; PStr "a"]; [PInt 2; PStr "b"]] /\
  remaining (fetchmany (Some 2) Demo.opened).2 = 1%nat.
Proof.
  assert (Hd : description_or_empty Demo.opened <> []) by discriminate.
  assert (Hall : Forall (complete (description_or_empty Demo.opened))
                   (en_items (_iterrows Demo.opened))).
  { vm_compute. repeat constructor; eexists; reflexivity. }
  destruct (fetchmany_takes_the_next_rows (Some 2) Demo.opened Hd Hall) as (H1 & H2 & _).
  rewrite H1. split; [vm_compute; reflexivity|].
  unfold remaining. cbn [snd]. rewrite H2. vm_compute. reflexivity.
Defined.

(** ** From the table to the tuples *)

(** The position of a label among the table's columns. *)
Fixpoint index_of (name : string) (cols : list string) : option nat :=
  match cols with
  | [] => None
  | c :: cs => if String.eqb c name then Some 0%nat else S <$> index_of name cs
  end.

(** The cell of a table row under a label. *)
Definition cell_at (cols : list string) (cells : list pyval) (name : string)
  : option pyval :=
  match index_of name cols with
  | Some i => cells !! i
  | None => None
  end.

(** A table row cut down to the described columns, in description
    order. *)
Definition project (cols : list string) (desc : list column) (cells : list pyval) : tuple :=
  map (fun d => default PNone (cell_at cols cells (col_name d))) desc.

Lemma index_of_absent name cols : name ∉ cols -> index_of name cols = None.
Proof.
  induction cols as [|c cs IH]; [reflexivity|].
  intros [Hne Hnot]%not_elem_of_cons. cbn [index_of].
  destruct (String.eqb_spec c name) as [->|_]; [congruence|].
  rewrite (IH Hnot). reflexivity.
Qed.

Lemma index_of_present name cols :
  name ∈ cols -> exists i, index_of name cols = Some i /\ (i < length cols)%nat.
Proof.
  induction cols as [|c cs IH]; [intros H; inversion H|].
  cbn [index_of length]. destruct (String.eqb_spec c name) as [->|Hne].
  - intros _. exists 0%nat. split; [reflexivity | lia].
  - intros [->|H]%elem_of_cons; [congruence|].
    destruct (IH H) as (i & -> & Hi). exists (S i). split; [reflexivity | lia].
Qed.

Lemma zip_fold_lookup cols : forall cells (m : gmap string pyval) name,
  NoDup cols ->
  foldl (fun m kv => <[kv.1 := kv.2]> m) m (zip cols cells) !! name
  = match cell_at cols cells name with
    | Some v => Some v
    | None => m !! name
    end.
Proof.
  unfold cell_at.
  induction cols as [|c cs IH]; intros cells m name Hnd; [reflexivity|].
  apply NoDup_cons in Hnd as [Hc Hcs].
  destruct cells as [|v vs].
  - cbn [zip zip_with foldl]. destruct (index_of name (c :: cs)); reflexivity.
  - cbn [zip zip_with foldl fst snd index_of]. rewrite (IH _ _ _ Hcs).
    destruct (String.eqb_spec c name) as [->|Hne].
    + rewrite (index_of_absent _ _ Hc). cbn. apply lookup_insert_eq.
    + destruct (index_of name cs) as [i|]; cbn [fmap option_fmap option_map lookup list_lookup].
      * destruct (vs !! i); [reflexivity | apply lookup_insert_ne, Hne].
      * apply lookup_insert_ne, Hne.
Qed.

(** With distinct column labels, a record holds under each label the
    row's cell at the label's position. *)
Lemma record_of_lookup cols cells name :
  NoDup cols -> record_of cols cells !! name = cell_at cols cells name.
Proof.
  intros Hnd. unfold record_of. rewrite (zip_fold_lookup _ _ _ _ Hnd).
  destruct (cell_at cols cells name); [reflexivity | apply lookup_empty].
Qed.

Lemma tuple_of_record cols desc cells :
  NoDup cols -> tuple_of desc (record_of cols cells) = project cols desc cells.
Proof.
  intros Hnd. unfold tuple_of, project. apply map_ext. intros d.
  rewrite (record_of_lookup _ _ _ Hnd). reflexivity.
Qed.

Lemma record_complete cols desc cells :
  NoDup cols ->
  length cells = length cols ->
  Forall (fun d => col_name d ∈ cols) desc ->
  complete desc (record_of cols cells).
Proof.
  intros Hnd Hlen Hin. unfold complete. eapply Forall_impl; [exact Hin|].
  intros d Hd. cbn beta. rewrite (record_of_lookup _ _ _ Hnd). unfold cell_at.
  destruct (index_of_present _ _ Hd) as (i & -> & Hi).
  apply lookup_lt_is_Some. lia.
Qed.

(** X6. Take a table with distinct column labels whose rows are as wide
    as its header, and a cursor standing at the start of its records, with
    a description that is not empty and names only columns of the table.
    Then [fetchall] returns the table's rows in the table's order, each
    reduced to the described columns in the order of the description (not
    of the table's header). *)
Theorem fetchall_projects_the_table df rs :
  NoDup (df_columns df) ->
  Forall (fun cells => length cells = length (df_columns df)) (df_values df) ->
  en_items (_iterrows rs) = to_dict_records df ->
  description_or_empty rs <> [] ->
  Forall (fun d => col_name d ∈ df_columns df) (description_or_empty rs) ->
  (fetchall rs).1
  = Val (map (project (df_columns df) (description_or_empty rs)) (df_values df)).
Proof.
  intros Hnd Hwide Hi Hd Hin.
  assert (Hall : Forall (complete (description_or_empty rs)) (en_items (_iterrows rs))).
  { rewrite Hi. unfold to_dict_records. apply Forall_map.
    eapply Forall_impl; [exact Hwide|]. intros cells Hlen. cbn beta.
    apply record_complete; assumption. }
  unfold fetchall. rewrite (fetchall_loop_complete _ [] rs eq_refl Hd Hall).
  cbn [fst app]. rewrite Hi. unfold to_dict_records. rewrite map_map. f_equal.
  apply map_ext. intros cells. apply tuple_of_record, Hnd.
Qed.

(** [Demo.opened] described by the name column first. *)
Definition reordered : ResultSet :=
  set_metadata (Some [MkColumn "name" "varchar"; MkColumn "id" "integer"]) Demo.opened.

Lemma fetchall_projects_the_table_witness :
  (fetchall reordered).1
  = Val [[PStr "a"; PInt 1]; [PStr "b"; PInt 2]; [PStr "c"; PInt 3]].
Proof.
  refine (fetchall_projects_the_table Demo.table reordered _ _ _ _ _).
  - cbn. apply NoDup_cons. split; [|apply NoDup_singleton].
    apply not_elem_of_cons. split; [discriminate | apply not_elem_of_nil].
  - repeat constructor.
  - vm_compute. reflexivity.
  - discriminate.
  - repeat constructor; cbn; set_solver.
Defined.

(** ** Construction without output *)




(** ** Reading the text file *)

(** The calls of [pd.read_csv] made so far. *)
Definition csv_reads (rs : ResultSet) : list csv_call :=
  flat_map (fun e => match e with EvReadCsv c => [c] | _ => [] end) (trace rs).

Lemma csv_reads_emit e rs :
  csv_reads (emit e rs)
  = csv_reads rs ++ match e with EvReadCsv c => [c] | _ => [] end.
Proof.
  unfold csv_reads. cbn [trace emit]. rewrite flat_map_app. cbn. apply f_equal, app_nil_r.
Qed.

(** X8. When the output file has length zero, [_read_csv] returns the
    empty table without calling the reader, whatever the file's suffix. *)
Theorem read_csv_of_an_empty_file W rs loc :
  output_location (base rs) = Some loc ->
  PyStr.truthy (Some loc) = true ->
  get_content_length W = Val 0 ->
  (_read_csv W rs).1 = Val empty_DataFrame /\
  csv_reads (_read_csv W rs).2 = csv_reads rs /\
  logged (_read_csv W rs).2 = logged rs.
Proof.
  intros Hloc Ht Hlen.
  assert (H : _read_csv W rs
              = (Val empty_DataFrame,
                 if PyStr.endswith_any loc [".csv"; ".txt"]
                 then emit EvGetContentLength rs else rs)).
  { unfold _read_csv. rewrite bind_get, Hloc.
    destruct loc as [|ch loc]; [discriminate Ht|].
    destruct (PyStr.endswith_any _ _); cbn [negb]; [|reflexivity].
    unfold bind at 1. rewrite get_content_length_run, Hlen. reflexivity. }
  rewrite H. cbn [fst snd].
  destruct (PyStr.endswith_any _ _); repeat split.
  - rewrite csv_reads_emit. apply app_nil_r.
  - rewrite logged_emit. apply app_nil_r.
Qed.

Lemma read_csv_of_an_empty_file_witness :
  (_read_csv (MkWorld Demo.no_module (Val []) (Val 0) (fun _ => Val Demo.table)
                (fun df _ => Val df) (fun _ => Val Demo.table) (fun _ => Val ("bkt", "out/"))
                (fun _ => Val Demo.cols) (fun _ => Val Demo.cols))
     (blank Demo.select_base (Demo.config 2 false "auto") None)).1
  = Val empty_DataFrame.
Proof.
  refine (proj1 (read_csv_of_an_empty_file _ _ "s3://bkt/results/q1.csv" _ _ _));
    reflexivity.
Defined.

Lemma endswith_any_csv_txt loc :
  PyStr.endswith_any loc [".csv"; ".txt"] = PyStr.endswith loc ".txt" || PyStr.endswith loc ".csv".
Proof. unfold PyStr.endswith_any. cbn. rewrite orb_false_r. apply orb_comm. Qed.

(** The one call [_read_csv] makes for a location and a length that is
    not zero. *)
Definition text_call (rs : ResultSet) (loc : string) : csv_call :=
  if PyStr.endswith loc ".txt"
  then csv_call_of rs loc tab None (Some (map col_name (description_or_empty rs)))
  else csv_call_of rs loc "," (Some 0) None.

Lemma read_csv_runs_guarded W rs loc len :
  output_location (base rs) = Some loc ->
  PyStr.endswith_any loc [".csv"; ".txt"] = true ->
  get_content_length W = Val len ->
  len <> 0 ->
  exists sep header names,
    csv_call_of (emit EvGetContentLength rs) loc sep header names = text_call rs loc /\
    _read_csv W rs
    = read_csv_guarded W loc sep header names (emit EvGetContentLength rs).
Proof.
  intros Hloc Hsuf Hlen Hnz. unfold _read_csv. rewrite bind_get, Hloc.
  destruct loc as [|ch loc]; [discriminate Hsuf|].
  rewrite Hsuf. cbn [negb]. unfold bind at 1. rewrite get_content_length_run, Hlen.
  rewrite endswith_any_csv_txt in Hsuf. unfold text_call.
  assert (Hn : negb (len =? 0) = true) by (apply negb_true_iff, Z.eqb_neq, Hnz).
  rewrite Hn. cbn [andb].
  destruct (PyStr.endswith (String ch loc) ".txt"); [eauto 6|].
  cbn [orb] in Hsuf. rewrite Hsuf. eauto 6.
Qed.

(** The columns whose values [_trunc_date] cuts down to the time of
    day. *)
Definition time_columns (rs : ResultSet) : list string :=
  map col_name
    (filter (fun d => str_in (col_type d) ["time"; "time with time zone"] = true)
       (description_or_empty rs)).

Lemma trunc_date_run W df rs :
  _trunc_date W df rs =
  match time_columns rs with
  | [] => (Val df, rs)
  | _ :: _ => (dt_time W df (time_columns rs), emit (EvTruncTime (time_columns rs)) rs)
  end.
Proof.
  unfold _trunc_date, time_columns. rewrite bind_get.
  destruct (map col_name _); reflexivity.
Qed.

Lemma time_columns_parsed_as_dates desc :
  map col_name
    (filter (fun d => str_in (col_type d) ["time"; "time with time zone"] = true) desc)
  `sublist_of`
  map col_name (filter (fun d => str_in (col_type d) _parse_dates = true) desc).
Proof.
  induction desc as [|d ds IH]; [constructor|].
  rewrite !filter_cons.
  destruct (decide (str_in (col_type d) ["time"; "time with time zone"] = true)) as [Ht|Ht].
  - assert (Hp : str_in (col_type d) _parse_dates = true).
    { clear IH. unfold str_in, _parse_dates in *. cbn [existsb] in *.
      destruct (String.eqb (col_type d) "date"), (String.eqb (col_type d) "time"),
        (String.eqb (col_type d) "time with time zone");
        try reflexivity; discriminate Ht. }
    destruct (decide (str_in (col_type d) _parse_dates = true)); [|contradiction].
    cbn [map]. apply sublist_skip, IH.
  - destruct (decide (str_in (col_type d) _parse_dates = true)); [|exact IH].
    cbn [map]. apply sublist_cons, IH.
Qed.

(** X10. [_trunc_date] returns the table as it is, calling nothing, when
    no column is of type [time] or [time with time zone]; otherwise it
    applies the truncation to exactly those columns, once. The columns it
    truncates are, in the same order, among the columns [parse_dates]
    tells the reader to parse as dates. *)
Theorem trunc_date_touches_only_parsed_time_columns W df rs :
  _trunc_date W df rs
  = (if decide (time_columns rs = []) then (Val df, rs)
     else (dt_time W df (time_columns rs), emit (EvTruncTime (time_columns rs)) rs)) /\
  time_columns rs `sublist_of` parse_dates rs.
Proof.
  split.
  - rewrite trunc_date_run. destruct (time_columns rs); reflexivity.
  - apply time_columns_parsed_as_dates.
Qed.

Example time_columns_of_a_description :
  let rs := set_metadata
              (Some [MkColumn "d" "date"; MkColumn "t" "time"; MkColumn "n" "integer";
                     MkColumn "tz" "time with time zone"]) Demo.opened in
  time_columns rs = ["t"; "tz"] /\ parse_dates rs = ["d"; "t"; "tz"].
Proof. vm_compute. split; reflexivity. Qed.

(** What a [try] block's result becomes under the handler that logs
    [msg] and raises [OperationalError] with the same [args]. *)
Definition handled {A} (msg : string) (r : outcome A * ResultSet) : outcome A * ResultSet :=
  match r with
  | (Raise e, s) =>
      if is_Exception (exn_cls e)
      then (Raise (wrap_operational e), emit (EvLogException msg) s)
      else (Raise e, s)
  | _ => r
  end.

(** What [_read_csv] gets from the reader and the truncation pass,
    before the handler. *)
Definition text_read (W : World) (rs : ResultSet) (loc : string) : outcome DataFrame :=
  match pd_read_csv W (text_call rs loc) with
  | Val df =>
      match time_columns rs with
      | [] => Val df
      | _ :: _ => dt_time W df (time_columns rs)
      end
  | Raise e => Raise e
  end.

(** The outcome after the handler. *)
Definition reraised {A} (o : outcome A) : outcome A :=
  match o with
  | Raise e => Raise (if is_Exception (exn_cls e) then wrap_operational e else e)
  | Val a => Val a
  end.

(** What the handler logs. *)
Definition failure_log {A} (msg : string) (o : outcome A) : list string :=
  match o with
  | Raise e => if is_Exception (exn_cls e) then [msg] else []
  | Val _ => []
  end.

Lemma try_except_handled {A} (m : M A) msg rs :
  try_except m (fun e => run log_exception msg >> throw (wrap_operational e)) rs
  = handled msg (m rs).
Proof.
  unfold try_except, handled. destruct (m rs) as [[a|e] s]; [reflexivity|].
  destruct (is_Exception (exn_cls e)); reflexivity.
Qed.

Lemma handled_fst {A} msg (r : outcome A * ResultSet) : (handled msg r).1 = reraised r.1.
Proof.
  destruct r as [[a|e] s]; [reflexivity|]. cbn. destruct (is_Exception _); reflexivity.
Qed.

Lemma handled_logged {A} msg (r : outcome A * ResultSet) :
  logged (handled msg r).2 = logged r.2 ++ failure_log msg r.1.
Proof.
  destruct r as [[a|e] s]; cbn -[logged]; [symmetry; apply app_nil_r|].
  destruct (is_Exception _); cbn -[logged]; [apply logged_emit | symmetry; apply app_nil_r].
Qed.

Lemma handled_csv_reads {A} msg (r : outcome A * ResultSet) :
  csv_reads (handled msg r).2 = csv_reads r.2.
Proof.
  destruct r as [[a|e] s]; [reflexivity|]. cbn -[csv_reads].
  destruct (is_Exception _); cbn -[csv_reads]; [|reflexivity].
  rewrite csv_reads_emit. apply app_nil_r.
Qed.

Lemma read_csv_guarded_run W loc sep header names rs :
  read_csv_guarded W loc sep header names rs
  = handled ("Failed to read " +:+ loc +:+ ".")
      (let c := csv_call_of rs loc sep header names in
       match pd_read_csv W c with
       | Val df => _trunc_date W df (emit (EvReadCsv c) rs)
       | Raise e => (Raise e, emit (EvReadCsv c) rs)
       end).
Proof.
  unfold read_csv_guarded. rewrite try_except_handled. f_equal.
Qed.

(** The whole of [_read_csv] on a file that is there. *)
Lemma read_csv_text_run W rs loc len :
  output_location (base rs) = Some loc ->
  PyStr.endswith_any loc [".csv"; ".txt"] = true ->
  get_content_length W = Val len ->
  len <> 0 ->
  (_read_csv W rs).1 = reraised (text_read W rs loc) /\
  csv_reads (_read_csv W rs).2 = csv_reads rs ++ [text_call rs loc] /\
  logged (_read_csv W rs).2
  = logged rs ++ failure_log ("Failed to read " +:+ loc +:+ ".") (text_read W rs loc).
Proof.
  intros Hloc Hsuf Hlen Hnz.
  destruct (read_csv_runs_guarded W rs loc len Hloc Hsuf Hlen Hnz)
    as (sep & header & names & Hcall & ->).
  rewrite read_csv_guarded_run, handled_fst, handled_logged, handled_csv_reads.
  cbv zeta. rewrite Hcall. unfold text_read.
  assert (Hc : csv_reads (emit (EvReadCsv (text_call rs loc)) (emit EvGetContentLength rs))
               = csv_reads rs ++ [text_call rs loc]).
  { rewrite !csv_reads_emit, app_nil_r. reflexivity. }
  assert (Hl : logged (emit (EvReadCsv (text_call rs loc)) (emit EvGetContentLength rs))
               = logged rs).
  { rewrite !logged_emit, !app_nil_r. reflexivity. }
  destruct (pd_read_csv W (text_call rs loc)) as [df|e]; cbn [fst snd].
  - rewrite trunc_date_run.
    change (time_columns (emit (EvReadCsv (text_call rs loc)) (emit EvGetContentLength rs)))
      with (time_columns rs).
    destruct (time_columns rs) as [|t ts]; cbn [fst snd]; rewrite ?Hl, ?Hc; [auto|].
    rewrite csv_reads_emit, logged_emit, Hl, Hc, !app_nil_r. auto.
  - rewrite Hl, Hc. auto.
Qed.



(** X11. For an output location ending in [.txt] or [.csv] and a length
    that is not zero, [_read_csv] returns what the reader and the
    truncation pass produce. If either raises an [Exception], [_read_csv]
    raises an [OperationalError] with the same [args] and logs exactly one
    message, which names the output location; an exception that is not an
    [Exception] passes through unchanged and nothing is logged. *)
Theorem read_csv_wraps_reader_failures W rs loc len :
  output_location (base rs) = Some loc ->
  PyStr.endswith_any loc [".csv"; ".txt"] = true ->
  get_content_length W = Val len ->
  len <> 0 ->
  (_read_csv W rs).1 = reraised (text_read W rs loc) /\
  logged (_read_csv W rs).2
  = logged rs ++ failure_log ("Failed to read " +:+ loc +:+ ".") (text_read W rs loc).
Proof.
  intros Hloc Hsuf Hlen Hnz.
  destruct (read_csv_text_run W rs loc len Hloc Hsuf Hlen Hnz) as (H1 & _ & H2).
  split; assumption.
Qed.


Lemma read_csv_wraps_reader_failures_witness :
  let W := MkWorld Demo.no_module (Val []) (Val 42) (fun _ => Raise Demo.os_error)
             (fun df _ => Val df) (fun _ => Val Demo.table) (fun _ => Val ("bkt", "out/"))
             (fun _ => Val Demo.cols) (fun _ => Val Demo.cols) in
  let rs := blank Demo.select_base (Demo.config 2 false "auto") None in
  (_read_csv W rs).1 = Raise (MkExn OperationalError [PStr "boom"]) /\
  logged (_read_csv W rs).2 = ["Failed to read s3://bkt/results/q1.csv."].
Proof.
  intros W rs.
  exact (read_csv_wraps_reader_failures W rs "s3://bkt/results/q1.csv" 42
           eq_refl eq_refl eq_refl ltac:(discriminate)).
Defined.

(** ** The resolver's views *)

Lemma fold_columns_lookup (f : gmap string string -> column -> gmap string string)
    (g : column -> option string) :
  (forall m d, f m d = match g d with Some t => <[col_name d := t]> m | None => m end) ->
  forall desc m,
    (forall name, name ∉ map col_name desc -> foldl f m desc !! name = m !! name) /\
    (NoDup (map col_name desc) ->
     forall d, d ∈ desc ->
       foldl f m desc !! col_name d
       = match g d with Some t => Some t | None => m !! col_name d end).
Proof.
  intros Hf. induction desc as [|d0 ds IH]; intros m.
  - split; [reflexivity|]. intros _ d Hd. inversion Hd.
  - cbn [foldl map]. destruct (IH (f m d0)) as [IHout IHin]. split.
    + intros name [Hne Hnot]%not_elem_of_cons. rewrite (IHout _ Hnot), Hf.
      destruct (g d0); [apply lookup_insert_ne; congruence | reflexivity].
    + intros [Hd0 Hnd]%NoDup_cons d [->|Hd]%elem_of_cons.
      * rewrite (IHout _ Hd0), Hf.
        destruct (g d0); [apply lookup_insert_eq | reflexivity].
      * rewrite (IHin Hnd d Hd), Hf.
        destruct (g d); [reflexivity|].
        assert (col_name d0 <> col_name d).
        { intros Heq. apply Hd0. rewrite Heq. apply list_elem_of_fmap_2, Hd. }
        destruct (g d0); [apply lookup_insert_ne; assumption | reflexivity].
Qed.

(** The converter registered for a logical type, if there is one. *)
Definition converter_for (c : Converter) (logical_type : string) : option string :=
  match conv_mappings c !! logical_type with
  | Some _ => Some (conv_get c logical_type)
  | None => None
  end.

(** X12. When the described column names are distinct, [dtypes] maps
    each described column to the physical type the converter knows for its
    logical type and has no entry for a column whose logical type the
    converter does not know; [converters] likewise maps each described
    column to what the converter's [get] returns for its logical type,
    provided that type has a registered mapping. Neither has an entry for
    a name that is not described. *)
Theorem dtypes_and_converters_by_column rs d :
  NoDup (map col_name (description_or_empty rs)) ->
  d ∈ description_or_empty rs ->
  dtypes rs !! col_name d = conv_types (_converter (conf rs)) !! col_type d /\
  converters rs !! col_name d = converter_for (_converter (conf rs)) (col_type d) /\
  dom (dtypes rs) ⊆ list_to_set (map col_name (description_or_empty rs)) /\
  dom (converters rs) ⊆ list_to_set (map col_name (description_or_empty rs)).
Proof.
  intros Hnd Hd.
  pose proof (fold_columns_lookup
    (fun m d => match conv_types (_converter (conf rs)) !! col_type d with
                | Some t => <[col_name d := t]> m
                | None => m
                end)
    (fun d => conv_types (_converter (conf rs)) !! col_type d)
    (fun _ _ => eq_refl) (description_or_empty rs) ∅) as [Tout Tin].
  pose proof (fold_columns_lookup
    (fun m d => match conv_mappings (_converter (conf rs)) !! col_type d with
                | Some _ => <[col_name d := conv_get (_converter (conf rs)) (col_type d)]> m
                | None => m
                end)
    (fun d => converter_for (_converter (conf rs)) (col_type d))) as Hc.
  destruct (Hc ltac:(intros m d0; unfold converter_for;
                     destruct (conv_mappings _ !! _); reflexivity)
              (description_or_empty rs) ∅) as [Cout Cin].
  fold (dtypes rs) in Tout, Tin. fold (converters rs) in Cout, Cin.
  split; [|split; [|split]].
  - rewrite (Tin Hnd d Hd). destruct (conv_types _ !! _); [reflexivity | apply lookup_empty].
  - rewrite (Cin Hnd d Hd). destruct (converter_for _ _); [reflexivity | apply lookup_empty].
  - intros name [t Ht]%elem_of_dom. apply elem_of_list_to_set.
    destruct (decide (name ∈ map col_name (description_or_empty rs))) as [|Hn]; [assumption|].
    rewrite (Tout _ Hn), lookup_empty in Ht. discriminate Ht.
  - intros name [t Ht]%elem_of_dom. apply elem_of_list_to_set.
    destruct (decide (name ∈ map col_name (description_or_empty rs))) as [|Hn]; [assumption|].
    rewrite (Cout _ Hn), lookup_empty in Ht. discriminate Ht.
Qed.

Lemma dtypes_and_converters_by_column_witness :
  dtypes Demo.opened !! "id" = Some "Int64" /\
  converters Demo.opened !! "id" = None /\
  converters Demo.opened !! "name" = Some "varchar".
Proof.
  assert (Hnd : NoDup (map col_name (description_or_empty Demo.opened))).
  { cbn. apply NoDup_cons. split; [|apply NoDup_singleton].
    apply not_elem_of_cons. split; [discriminate | apply not_elem_of_nil]. }
  destruct (dtypes_and_converters_by_column Demo.opened (MkColumn "id" "integer") Hnd
              ltac:(cbn; apply list_elem_of_here)) as (H1 & H2 & _).
  destruct (dtypes_and_converters_by_column Demo.opened (MkColumn "name" "varchar") Hnd
              ltac:(cbn; apply list_elem_of_further, list_elem_of_here)) as (_ & H3 & _).
  cbn [col_name col_type] in *. rewrite H1, H2, H3. repeat split.
Defined.

(** ** Reading the columnar fan-out *)

(** The calls of [pd.read_parquet] made so far. *)
Definition parquet_calls (rs : ResultSet) : list parquet_call :=
  flat_map (fun e => match e with EvReadParquet c => [c] | _ => [] end) (trace rs).

(** [d.get(k)] *)
Fixpoint dict_get (k : string) (d : kwargs) : option pyval :=
  match d with
  | [] => None
  | (k', v) :: d' => if String.eqb k k' then Some v else dict_get k d'
  end.

(** The engine is one [_read_parquet] knows. *)
Definition known_engine (engine : string) : bool :=
  String.eqb engine "pyarrow" || String.eqb engine "fastparquet".

(** The root [_read_parquet] reads under: the configured unload
    location, or else the one derived from the manifest's first entry. *)
Definition effective_root (first : string) (rs : ResultSet) : string :=
  if PyStr.truthy (_unload_location rs) then default "" (_unload_location rs)
  else unload_root first.

(** The object once the manifest is cached and the root settled. *)
Definition located (manifest : list string) (first : string) (rs : ResultSet) : ResultSet :=
  let rs1 := set_data_manifest manifest (emit EvReadDataManifest rs) in
  if PyStr.truthy (_unload_location rs) then rs1
  else set_unload_location (Some (unload_root first)) rs1.

(** The call [_read_parquet] makes for an engine it knows. *)
Definition parquet_call_of (engine : string) (first : string) (rs : ResultSet)
  : parquet_call :=
  MkParquetCall
    (if String.eqb engine "pyarrow" then effective_root first rs
     else effective_root first rs +:+ "*")
    (_engine (conf rs))
    (storage_options_of (connection (conf rs)))
    false
    (dict_update
       (if String.eqb engine "pyarrow"
        then [("use_threads", PBool true); ("use_legacy_dataset", PBool false)]
        else [])
       (_kwargs (conf rs))).

Lemma read_parquet_run W engine rs first rest :
  read_data_manifest W = Val (first :: rest) ->
  _read_parquet W engine rs
  = if known_engine engine
    then handled ("Failed to read " +:+ default "None" (output_location (base rs)) +:+ ".")
           (pd_read_parquet W (parquet_call_of engine first rs),
            emit (EvReadParquet (parquet_call_of engine first rs))
              (located (first :: rest) first rs))
    else (Raise bad_engine, located (first :: rest) first rs).
Proof.
  intros Hm. unfold _read_parquet.
  rewrite (bind_val _ _ _ _ _ (read_data_manifest_val W _ rs Hm)).
  rewrite bind_modify, bind_get. cbn [_unload_location set_data_manifest emit].
  unfold known_engine, parquet_call_of, located, effective_root.
  destruct (PyStr.truthy (_unload_location rs)) eqn:Ht;
    [rewrite bind_ret_l | rewrite bind_modify]; rewrite bind_get;
    (destruct (String.eqb engine "pyarrow"); cbn [orb];
     [rewrite bind_ret_l, try_except_handled; reflexivity|];
     destruct (String.eqb engine "fastparquet");
     [rewrite bind_ret_l, try_except_handled; reflexivity | reflexivity]).
Qed.


Lemma located_trace manifest first rs :
  trace (located manifest first rs) = trace rs ++ [EvReadDataManifest].
Proof. unfold located. destruct (PyStr.truthy _); reflexivity. Qed.

Lemma located_unload_location manifest first rs :
  _unload_location (located manifest first rs)
  = if PyStr.truthy (_unload_location rs) then _unload_location rs
    else Some (unload_root first).
Proof. unfold located. destruct (PyStr.truthy _); reflexivity. Qed.

Lemma located_data_manifest manifest first rs :
  _data_manifest (located manifest first rs) = manifest.
Proof. unfold located. destruct (PyStr.truthy _); reflexivity. Qed.

(** X13. With a manifest that is not empty and an engine that is
    neither [pyarrow] nor [fastparquet], [_read_parquet] raises the
    [ProgrammingError] about the engine without calling the reader or
    logging; by then it has cached the manifest and, if none was
    configured, set the unload location derived from the first entry. *)
Theorem read_parquet_rejects_unknown_engine W engine rs first rest :
  read_data_manifest W = Val (first :: rest) ->
  known_engine engine = false ->
  (_read_parquet W engine rs).1 = Raise bad_engine /\
  parquet_calls (_read_parquet W engine rs).2 = parquet_calls rs /\
  logged (_read_parquet W engine rs).2 = logged rs /\
  _data_manifest (_read_parquet W engine rs).2 = first :: rest /\
  _unload_location (_read_parquet W engine rs).2
  = if PyStr.truthy (_unload_location rs) then _unload_location rs
    else Some (unload_root first).
Proof.
  intros Hm He. rewrite (read_parquet_run W engine rs first rest Hm), He. cbn [fst snd].
  split; [reflexivity|].
  unfold parquet_calls, logged. rewrite located_trace, !flat_map_app, !app_nil_r.
  repeat split; [apply located_data_manifest | apply located_unload_location].
Qed.

Lemma read_parquet_rejects_unknown_engine_witness :
  (_read_parquet Demo.world "auto" (Demo.unloading "auto")).1 = Raise bad_engine /\
  _unload_location (_read_parquet Demo.world "auto" (Demo.unloading "auto")).2
  = Some "s3://bkt/out/".
Proof.
  destruct (read_parquet_rejects_unknown_engine Demo.world "auto" (Demo.unloading "auto")
              "s3://bkt/out/part-0000.parquet" [] eq_refl eq_refl) as (H1 & _ & _ & _ & H2).
  split; [exact H1 | exact H2].
Defined.

Lemma handled_snd_frame {A X} (f : ResultSet -> X) msg (r : outcome A * ResultSet) :
  (forall s, f (emit (EvLogException msg) s) = f s) ->
  f (handled msg r).2 = f r.2.
Proof.
  intros Hf. destruct r as [[a|e] s]; [reflexivity|]. cbn.
  destruct (is_Exception _); [apply Hf | reflexivity].
Qed.

Lemma parquet_reads_log msg s : parquet_reads (emit (EvLogException msg) s) = parquet_reads s.
Proof. rewrite parquet_reads_emit. apply app_nil_r. Qed.


(** X14. When an unload location is configured, [_read_parquet] keeps
    it and reads under it (with [*] appended for fastparquet), whatever
    the manifest's entries are: a manifest that is not empty only lets the
    read go ahead. *)
Theorem read_parquet_keeps_configured_location W engine rs first rest :
  read_data_manifest W = Val (first :: rest) ->
  PyStr.truthy (_unload_location rs) = true ->
  _unload_location (_read_parquet W engine rs).2 = _unload_location rs /\
  parquet_reads (_read_parquet W engine rs).2
  = parquet_reads rs ++ read_target engine (default "" (_unload_location rs)).
Proof.
  intros Hm Ht. rewrite (read_parquet_run W engine rs first rest Hm).
  assert (Hl : _unload_location (located (first :: rest) first rs) = _unload_location rs).
  { rewrite located_unload_location, Ht. reflexivity. }
  assert (Hr : parquet_reads (located (first :: rest) first rs) = parquet_reads rs).
  { unfold parquet_reads. rewrite located_trace, flat_map_app. apply app_nil_r. }
  unfold known_engine, read_target, parquet_call_of, effective_root. rewrite Ht.
  destruct (String.eqb engine "pyarrow"); cbn [orb];
    [|destruct (String.eqb engine "fastparquet")]; cbv iota.
  - split.
    + rewrite (handled_snd_frame _unload_location) by reflexivity. exact Hl.
    + rewrite (handled_snd_frame parquet_reads) by apply parquet_reads_log.
      cbn [snd]. rewrite parquet_reads_emit, Hr. reflexivity.
  - split.
    + rewrite (handled_snd_frame _unload_location) by reflexivity. exact Hl.
    + rewrite (handled_snd_frame parquet_reads) by apply parquet_reads_log.
      cbn [snd]. rewrite parquet_reads_emit, Hr. reflexivity.
  - cbn [fst snd]. split; [exact Hl | rewrite Hr, app_nil_r; reflexivity].
Qed.

Lemma read_parquet_keeps_configured_location_witness :
  parquet_reads
    (_read_parquet Demo.world "fastparquet"
       (set_unload_location (Some "s3://elsewhere/x/") (Demo.unloading "fastparquet"))).2
  = ["s3://elsewhere/x/*"].
Proof.
  exact (proj2 (read_parquet_keeps_configured_location Demo.world "fastparquet"
    (set_unload_location (Some "s3://elsewhere/x/") (Demo.unloading "fastparquet"))
    "s3://bkt/out/part-0000.parquet" [] eq_refl eq_refl)).
Defined.

(** *** Options handed to the readers *)

Lemma dict_get_set k k' v d :
  dict_get k (dict_set k' v d) = if String.eqb k k' then Some v else dict_get k d.
Proof.
  induction d as [|[k0 v0] d IH]; cbn [dict_set dict_get]; [reflexivity|].
  destruct (String.eqb_spec k' k0) as [->|Hne]; cbn [dict_get].
  - destruct (String.eqb k k0); reflexivity.
  - rewrite IH. destruct (String.eqb_spec k k0) as [->|_]; [|reflexivity].
    destruct (String.eqb_spec k0 k'); [congruence | reflexivity].
Qed.

Lemma dict_get_app k a b :
  dict_get k (a ++ b) = match dict_get k a with Some v => Some v | None => dict_get k b end.
Proof.
  induction a as [|[k0 v0] a IH]; cbn [app dict_get]; [reflexivity|].
  destruct (String.eqb k k0); [reflexivity | exact IH].
Qed.

(** After [d.update(e)] a key holds what [e] gave it last, or else what
    [d] held. *)
Lemma dict_get_update k e : forall d,
  dict_get k (dict_update d e)
  = match dict_get k (rev e) with Some v => Some v | None => dict_get k d end.
Proof.
  unfold dict_update. induction e as [|[k0 v0] e IH]; intros d; [reflexivity|].
  cbn [foldl rev fst snd]. rewrite IH, dict_get_app, dict_get_set. cbn [dict_get].
  destruct (dict_get k (rev e)); [reflexivity|].
  destruct (String.eqb k k0); reflexivity.
Qed.




(** X16. The storage options both readers receive carry the
    connection's profile, and as client options the connection's extra
    client options on top of its region: an extra option named
    [region_name] replaces the connection's region, every other extra
    option is passed as it is. *)
Theorem storage_options_from_the_connection rs first engine loc k :
  csv_storage_options (text_call rs loc) = storage_options_of (connection (conf rs)) /\
  pq_storage_options (parquet_call_of engine first rs)
  = storage_options_of (connection (conf rs)) /\
  so_profile (storage_options_of (connection (conf rs)))
  = profile_name (connection (conf rs)) /\
  dict_get k (so_client_kwargs (storage_options_of (connection (conf rs))))
  = match dict_get k (rev (_client_kwargs (connection (conf rs)))) with
    | Some v => Some v
    | None =>
        if String.eqb k "region_name"
        then Some (opt_str (region_name (connection (conf rs))))
        else None
    end.
Proof.
  split; [unfold text_call; destruct (PyStr.endswith loc ".txt"); reflexivity|].
  split; [reflexivity|]. split; [reflexivity|].
  unfold storage_options_of. cbn [so_client_kwargs]. rewrite dict_get_update. reflexivity.
Qed.

Example client_kwargs_override_the_region :
  so_client_kwargs
    (storage_options_of
       (MkConnection (Some "dev") (Some "us-east-1")
          [("endpoint_url", PStr "http://localhost:9000"); ("region_name", PStr "eu-west-1")]))
  = [("region_name", PStr "eu-west-1"); ("endpoint_url", PStr "http://localhost:9000")].
Proof. reflexivity. Qed.

(** *** The derived root *)

Lemma last_separator sep s :
  PyStr.has_char sep s = true ->
  exists dir file, s = dir +:+ String sep file /\ PyStr.has_char sep file = false.
Proof.
  induction s as [|c s IH]; cbn [PyStr.has_char]; [discriminate|].
  destruct (PyStr.has_char sep s) eqn:Hs.
  - intros _. destruct (IH eq_refl) as (dir & file & -> & Hf).
    exists (String c dir), file. split; [reflexivity | exact Hf].
  - rewrite orb_false_r. intros ->%Ascii.eqb_eq.
    exists "", s. split; [reflexivity | exact Hs].
Qed.

(** X17. The root derived from a manifest entry is the entry up to and
    including its last [/], so that the entry is the root followed by a
    file name without [/]; for an entry without any [/] the derived root
    is ["/"]. *)
Theorem unload_root_is_prefix_through_last_slash entry :
  exists file,
    PyStr.has_char "/" file = false /\
    if PyStr.has_char "/" entry
    then entry = unload_root entry +:+ file
    else unload_root entry = "/" /\ file = entry.
Proof.
  destruct (PyStr.has_char "/" entry) eqn:H.
  - destruct (last_separator _ _ H) as (dir & file & -> & Hf).
    exists file. split; [exact Hf|].
    change (String "/" file) with ("/" +:+ file).
    rewrite (unload_root_parent dir file Hf).
    clear. induction dir as [|c dir IH]; [reflexivity|].
    rewrite !append_cons. f_equal. exact IH.
  - exists entry. split; [exact H|]. split; [|reflexivity].
    unfold unload_root. rewrite (split_no_sep _ _ H). reflexivity.
Qed.

Example unload_root_examples :
  unload_root "s3://bkt/a/b/part-1.parquet" = "s3://bkt/a/b/" /\
  unload_root "s3://bkt/a/b/" = "s3://bkt/a/b/" /\
  unload_root "part-1.parquet" = "/".
Proof. repeat split. Qed.

(** ** Recovering the schema *)

(** What schema recovery from a location comes to: the location is
    parsed into bucket and key, outside any [try]; the reader is called
    on [bucket/key] under the handler. *)
Definition schema_outcome (W : World) (reader : string -> outcome (list column))
    (loc : string) : outcome (list column) :=
  match parse_output_location W loc with
  | Val bk => reraised (reader (bk.1 +:+ "/" +:+ bk.2))
  | Raise e => Raise e
  end.

(** What schema recovery from a location logs. *)
Definition schema_log (W : World) (reader : string -> outcome (list column))
    (loc : string) : list string :=
  match parse_output_location W loc with
  | Val bk =>
      failure_log ("Failed to read schema " +:+ (bk.1 +:+ "/" +:+ bk.2) +:+ ".")
        (reader (bk.1 +:+ "/" +:+ bk.2))
  | Raise _ => []
  end.

Lemma schema_from_run W ev reader loc s :
  (forall p s', logged (emit (ev p) s') = logged s') ->
  let r := bind (_parse_output_location W loc)
             (fun bk => read_schema_guarded ev reader bk.1 bk.2) s in
  r.1 = schema_outcome W reader loc /\
  logged r.2 = logged s ++ schema_log W reader loc.
Proof.
  intros Hev r.
  assert (E : r = match parse_output_location W loc with
                  | Val bk =>
                      handled ("Failed to read schema " +:+ (bk.1 +:+ "/" +:+ bk.2) +:+ ".")
                        (reader (bk.1 +:+ "/" +:+ bk.2),
                         emit (ev (bk.1 +:+ "/" +:+ bk.2)) (emit (EvParseOutputLocation loc) s))
                  | Raise e => (Raise e, emit (EvParseOutputLocation loc) s)
                  end).
  { subst r. unfold bind at 1.
    change (_parse_output_location W loc s)
      with (parse_output_location W loc, emit (EvParseOutputLocation loc) s).
    destruct (parse_output_location W loc) as [bk|e]; [|reflexivity].
    unfold read_schema_guarded. rewrite try_except_handled. reflexivity. }
  rewrite E. unfold schema_outcome, schema_log.
  destruct (parse_output_location W loc) as [bk|e].
  - rewrite handled_fst, handled_logged. cbn [fst snd].
    rewrite Hev, logged_emit, app_nil_r. split; reflexivity.
  - cbn [fst snd]. rewrite logged_emit, !app_nil_r. split; reflexivity.
Qed.

(** X18. Schema recovery with [pyarrow] needs the unload location: if
    it is unset or empty, a [ProgrammingError] is raised and nothing is
    read. Otherwise the location is parsed into bucket and key and the
    dataset schema is read at [bucket/key]: an [Exception] from the reader
    is raised again as an [OperationalError] with the same [args], after
    one log message that names [bucket/key]; a failure to parse the
    location is neither wrapped nor logged. *)
Theorem pyarrow_schema_recovery W rs :
  let r := _read_parquet_schema W "pyarrow" rs in
  match _unload_location rs with
  | Some (String c l) =>
      r.1 = schema_outcome W (pyarrow_schema W) (String c l) /\
      logged r.2 = logged rs ++ schema_log W (pyarrow_schema W) (String c l)
  | _ =>
      r.1 = Raise (MkExn ProgrammingError [PStr "UnloadLocation is none or empty."]) /\
      trace r.2 = trace rs ++ [EvReadParquetSchema "pyarrow"]
  end.
Proof.
  intros r. subst r. unfold _read_parquet_schema. rewrite bind_modify.
  change (String.eqb "pyarrow" "pyarrow") with true. cbv iota. rewrite bind_get.
  cbn [_unload_location emit].
  destruct (_unload_location rs) as [[|c l]|]; [split; reflexivity | | split; reflexivity].
  destruct (schema_from_run W EvPyarrowSchema (pyarrow_schema W) (String c l)
              (emit (EvReadParquetSchema "pyarrow") rs)) as [H1 H2].
  { intros p s'. rewrite logged_emit. apply app_nil_r. }
  rewrite H1, H2, logged_emit, app_nil_r. split; reflexivity.
Qed.

(** The number of times the manifest has been listed. *)
Definition manifest_listings (rs : ResultSet) : nat :=
  length (List.filter (fun e => match e with EvReadDataManifest => true | _ => false end)
            (trace rs)).

(** X19. Schema recovery with [fastparquet] reads the schema of the
    manifest's first file. With a cached manifest that is not empty, the
    manifest is not listed again: the first cached entry is parsed into
    bucket and key and the file's schema read at [bucket/key], with the
    same wrapping and logging as for pyarrow. *)
Theorem fastparquet_schema_recovery W rs first rest :
  _data_manifest rs = first :: rest ->
  let r := _read_parquet_schema W "fastparquet" rs in
  r.1 = schema_outcome W (fastparquet_schema W) first /\
  logged r.2 = logged rs ++ schema_log W (fastparquet_schema W) first /\
  manifest_listings r.2 = manifest_listings rs /\
  _data_manifest r.2 = first :: rest.
Proof.
  intros Hm r. subst r. unfold _read_parquet_schema. rewrite bind_modify.
  change (String.eqb "fastparquet" "pyarrow") with false.
  change (String.eqb "fastparquet" "fastparquet") with true. cbv iota.
  rewrite bind_get. cbn [_data_manifest emit]. rewrite Hm, bind_ret_l, bind_get.
  cbn [_data_manifest emit]. rewrite Hm.
  destruct (schema_from_run W EvFastparquetSchema (fastparquet_schema W) first
              (emit (EvReadParquetSchema "fastparquet") rs)) as [H1 H2].
  { intros p s'. rewrite logged_emit. apply app_nil_r. }
  rewrite H1, H2, logged_emit, app_nil_r. split; [reflexivity|]. split; [reflexivity|].
  match goal with |- context [bind ?m ?k ?s] => remember (bind m k s) as r eqn:Er end.
  assert (Hp : preserves (fun s => (manifest_listings s, _data_manifest s))
                 (bind (_parse_output_location W first)
                    (fun bk => read_schema_guarded EvFastparquetSchema
                                 (fastparquet_schema W) bk.1 bk.2))).
  { unfold _parse_output_location, read_schema_guarded. frame.
    all: unfold manifest_listings; cbn [trace emit _data_manifest];
      rewrite List.filter_app; cbn; rewrite app_nil_r; reflexivity. }
  pose proof (preserves_snd _ _ (emit (EvReadParquetSchema "fastparquet") rs) Hp) as H.
  rewrite <- Er in H. cbn beta in H.
  assert (H0 : manifest_listings (emit (EvReadParquetSchema "fastparquet") rs)
               = manifest_listings rs).
  { unfold manifest_listings. cbn [trace emit]. rewrite List.filter_app. cbn.
    rewrite app_nil_r. reflexivity. }
  injection H as Ha Hb. rewrite Ha, Hb, H0. cbn [_data_manifest emit]. split; [reflexivity|exact Hm].
Qed.

Lemma fastparquet_schema_recovery_witness :
  let rs := set_data_manifest ["s3://bkt/out/part-0000.parquet"] (Demo.unloading "fastparquet") in
  (_read_parquet_schema Demo.world "fastparquet" rs).1 = Val Demo.cols /\
  manifest_listings (_read_parquet_schema Demo.world "fastparquet" rs).2 = 0%nat.
Proof.
  intros rs.
  destruct (fastparquet_schema_recovery Demo.world rs "s3://bkt/out/part-0000.parquet" []
              eq_refl) as (H1 & _ & H2 & _).
  split; [exact H1 | exact H2].
Defined.

Example fastparquet_schema_without_manifest :
  let W := Demo.world_with Imported (Val []) (fun _ => Val Demo.table) in
  (_read_parquet_schema W "fastparquet" (Demo.unloading "fastparquet")).1
  = Raise (MkExn (OtherException "IndexError") [PStr "list index out of range"]) /\
  manifest_listings (_read_parquet_schema W "fastparquet" (Demo.unloading "fastparquet")).2
  = 1%nat.
Proof. split; reflexivity. Qed.

(** ** Choosing the path *)

(** X20. On the UNLOAD path, once the engine is resolved and the
    columnar read has returned a table that is not empty, [_as_pandas]
    runs schema recovery on the state the read left: if it succeeds, the
    table is returned and the column description is replaced by the
    recovered schema; if it raises, [_as_pandas] raises the same exception
    and the description stays as it was. *)
Theorem as_pandas_unload_replaces_description W rs engine rs1 df rs2 :
  is_unload rs = true ->
  __get_engine W rs = (Val engine, rs1) ->
  _read_parquet W engine rs1 = (Val df, rs2) ->
  df_empty df = false ->
  (_as_pandas W rs).1
  = match (_read_parquet_schema W engine rs2).1 with
    | Val _ => Val df
    | Raise e => Raise e
    end /\
  description (_as_pandas W rs).2
  = match (_read_parquet_schema W engine rs2).1 with
    | Val cols => Some cols
    | Raise _ => description rs
    end.
Proof.
  intros Hu He Hp Hdf.
  assert (Hmeta : forall s, (_read_parquet_schema W engine rs2) = s ->
                  description s.2 = description rs).
  { intros s <-.
    rewrite (preserves_snd description (_read_parquet_schema W engine) rs2)
      by (apply preserves_read_parquet_schema; reflexivity).
    rewrite (preserves_read_parquet W description ltac:(reflexivity) ltac:(reflexivity)
               ltac:(reflexivity) engine _ _ _ Hp).
    exact (preserves_get_engine W description ltac:(reflexivity) _ _ _ He). }
  unfold _as_pandas. rewrite bind_get, Hu.
  rewrite (bind_val _ _ _ _ _ He), (bind_val _ _ _ _ _ Hp), Hdf.
  unfold bind. specialize (Hmeta _ eq_refl).
  destruct (_read_parquet_schema W engine rs2) as [[cols|e] rs3]; cbn [fst snd] in *.
  - split; reflexivity.
  - split; [reflexivity | exact Hmeta].
Qed.

Lemma as_pandas_unload_replaces_description_witness :
  let W := Demo.world_with Imported (Val ["s3://bkt/out/part-0000.parquet"])
             (fun _ => Val Demo.table) in
  let rs := set_metadata None (Demo.unloading "pyarrow") in
  (_as_pandas W rs).1 = Val Demo.table /\
  description (_as_pandas W rs).2 = Some Demo.cols.
Proof.
  intros W rs.
  refine (as_pandas_unload_replaces_description W rs "pyarrow" rs Demo.table
            (_read_parquet W "pyarrow" rs).2 _ _ _ _).
  - reflexivity.
  - reflexivity.
  - vm_compute. reflexivity.
  - reflexivity.
Defined.

(** What the text path has no business with. *)
Definition outside_text_path (rs : ResultSet)
  : Base * Config * option string * list string :=
  (base rs, conf rs, _unload_location rs, _data_manifest rs).

(** X21. When the result set is not an UNLOAD one, [_as_pandas] is
    [_read_csv], and whatever it returns or raises it leaves the column
    description and the other base attributes, the options, the unload
    location and the cached manifest as they were. *)
Theorem as_pandas_text_path_keeps_description W rs :
  is_unload rs = false ->
  _as_pandas W rs = _read_csv W rs /\
  outside_text_path (_as_pandas W rs).2 = outside_text_path rs.
Proof.
  intros Hu.
  assert (H : _as_pandas W rs = _read_csv W rs).
  { unfold _as_pandas. rewrite bind_get, Hu. reflexivity. }
  split; [exact H|]. rewrite H.
  apply preserves_snd, preserves_read_csv. reflexivity.
Qed.

Lemma as_pandas_text_path_keeps_description_witness :
  description (_as_pandas Demo.world (blank Demo.select_base (Demo.config 2 false "auto") None)).2
  = Some Demo.cols.
Proof.
  pose proof (proj2 (as_pandas_text_path_keeps_description Demo.world
                       (blank Demo.select_base (Demo.config 2 false "auto") None) eq_refl))
    as H.
  apply (f_equal (fun t => _metadata t.1.1.1)) in H. exact H.
Defined.

(** *** Recognising an UNLOAD statement *)

(** The result set with another query text. *)
Definition with_query (q : option string) (rs : ResultSet) : ResultSet :=
  let b := base rs in
  set_base (MkBase (state b) (output_location b) q (_metadata b) (_rownumber b)) rs.

(** Every character is white space. *)
Fixpoint all_space (s : string) : bool :=
  match s with
  | EmptyString => true
  | String c s' => PyStr.is_space c && all_space s'
  end.

Lemma lstrip_leading ws q : all_space ws = true -> PyStr.lstrip (ws +:+ q) = PyStr.lstrip q.
Proof.
  induction ws as [|c ws IH]; [reflexivity|].
  cbn [all_space]. intros [Hc Hws]%andb_prop.
  rewrite append_cons. cbn [PyStr.lstrip]. rewrite Hc. exact (IH Hws).
Qed.

Lemma is_space_upper_char c : PyStr.is_space (PyStr.upper_char c) = PyStr.is_space c.
Proof. destruct c as [[] [] [] [] [] [] [] []]; reflexivity. Qed.

Lemma upper_lstrip s : PyStr.upper (PyStr.lstrip s) = PyStr.lstrip (PyStr.upper s).
Proof.
  induction s as [|c s IH]; [reflexivity|].
  cbn [PyStr.lstrip PyStr.upper]. rewrite is_space_upper_char.
  destruct (PyStr.is_space c); [exact IH | reflexivity].
Qed.

Lemma upper_rev_acc s : forall acc,
  PyStr.upper (PyStr.rev_acc s acc) = PyStr.rev_acc (PyStr.upper s) (PyStr.upper acc).
Proof.
  induction s as [|c s IH]; intros acc; [reflexivity|].
  cbn [PyStr.rev_acc PyStr.upper]. rewrite IH. reflexivity.
Qed.

Lemma upper_strip s : PyStr.upper (PyStr.strip s) = PyStr.strip (PyStr.upper s).
Proof.
  unfold PyStr.strip, PyStr.rev.
  rewrite upper_rev_acc, upper_lstrip, upper_rev_acc, upper_lstrip. reflexivity.
Qed.

Lemma is_unload_prefix_test rs :
  is_unload rs
  = _unload (conf rs) &&
    match query (base rs) with
    | Some q => PyStr.startswith (PyStr.upper (PyStr.strip q)) "UNLOAD"
    | None => false
    end.
Proof.
  unfold is_unload. destruct (query (base rs)) as [[|c q]|]; reflexivity.
Qed.

(** X22. Whether a result set counts as an UNLOAD one does not depend
    on white space in front of the query text nor on the case of its
    letters: two query texts that agree up to leading white space and
    letter case are classified alike. *)
Theorem is_unload_ignores_leading_space_and_case rs ws q q' :
  all_space ws = true ->
  PyStr.upper q = PyStr.upper q' ->
  is_unload (with_query (Some (ws +:+ q)) rs) = is_unload (with_query (Some q') rs).
Proof.
  intros Hws Hq. rewrite !is_unload_prefix_test. cbn [conf base with_query set_base query].
  f_equal. rewrite !upper_strip, <- Hq, <- !upper_strip.
  unfold PyStr.strip. rewrite (lstrip_leading _ _ Hws). reflexivity.
Qed.

Lemma is_unload_ignores_leading_space_and_case_witness :
  is_unload (with_query (Some ("  " +:+ "Unload (select 1) to 's3://b/p/'"))
               (Demo.unloading "auto"))
  = is_unload (with_query (Some "UNLOAD (SELECT 1) TO 'S3://B/P/'") (Demo.unloading "auto")).
Proof.
  apply (is_unload_ignores_leading_space_and_case (Demo.unloading "auto") "  "
           "Unload (select 1) to 's3://b/p/'" "UNLOAD (SELECT 1) TO 'S3://B/P/'");
    reflexivity.
Defined.

Example is_unload_needs_the_flag :
  is_unload (blank Demo.unload_base (Demo.config 2 false "auto") None) = false /\
  is_unload (blank Demo.unload_base (Demo.config 2 true "auto") None) = true /\
  is_unload (blank Demo.select_base (Demo.config 2 true "auto") None) = false.
Proof. repeat split. Qed.
